(** * hoomd.md.force: the scripting-layer force classes

    A shallow embedding of [src/hoomd/md/force.py]: the base class [_force]
    with its [enable] / [disable] / [benchmark] controls, and the derived
    classes [constant], [active] and [const_external_field_dipole].

    Python objects are mutable and shared (a force is referenced both by the
    script's variable and by [hoomd.context.current.forces]; its native
    compute is referenced both by [self.cpp_force] and by the system's
    compute registry), so the embedding keeps two stores: one for the Python
    force objects and one for the native compute objects.  Every method is a
    function from the world to the world and an outcome, the outcome being a
    returned value or a raised exception. *)

From Stdlib Require Import QArith ZArith String List Bool Lia.
From Stdlib Require Import DecimalString DecimalNat.
From stdpp Require Import base option gmap strings list fin_maps.

Local Open Scope string_scope.

(** ** Values *)

(** Force components, diffusion constants and the like are Python numbers;
    only their identity and their sign are ever looked at. *)
Definition Scalar : Type := Q.

(** [_hoomd.make_scalar3(x, y, z)]. *)
Record Scalar3 : Type := make_scalar3 { s3_x : Scalar; s3_y : Scalar; s3_z : Scalar }.

(** What an element of [f_lst] may be: the constructor of [active] inspects
    its type and its length. *)
#[warnings="-register-all"]
Inductive pyval : Type :=
| PyNone
| PyNum (x : Scalar)
| PyStr (s : string)
| PyTuple (items : list pyval)
| PyList (items : list pyval).

Inductive pytype : Type := NoneType | number | str | tuple | list_.

Definition type (v : pyval) : pytype :=
  match v with
  | PyNone => NoneType
  | PyNum _ => number
  | PyStr _ => str
  | PyTuple _ => tuple
  | PyList _ => list_
  end.

Definition pytype_eqb (a b : pytype) : bool :=
  match a, b with
  | NoneType, NoneType | number, number | str, str
  | tuple, tuple | list_, list_ => true
  | _, _ => false
  end.

(** [len(v)]; only sized values have one. *)
Definition len (v : pyval) : option nat :=
  match v with
  | PyStr s => Some (String.length s)
  | PyTuple l | PyList l => Some (length l)
  | PyNone | PyNum _ => None
  end.

(** A particle group: the script-level object and the native group it wraps
    (an ordered collection of particle tags). *)
Record group : Type := Group { group_name : string; cpp_group : list nat }.

(** A constraint object as [active] sees it: its class name and the four
    attributes read from an ellipsoid.  The class name is a [str] object
    and [active] tests its identity, not its text: [class_name_interned]
    tells whether it is the interned string of its text, as the name of
    every class written with a [class] statement is; a name built at run
    time is a string of its own. *)
Record constraint_obj : Type := MkConstraint {
  class_name : string;
  class_name_interned : bool;
  constraint_P : Scalar3;
  constraint_rx : Scalar;
  constraint_ry : Scalar;
  constraint_rz : Scalar
}.

(** An instance of a class written with a [class] statement. *)
Definition Constraint (cls : string) (P : Scalar3) (rx ry rz : Scalar)
  : constraint_obj :=
  MkConstraint cls true P rx ry rz.

(** [c.__class__.__name__ is literal]: a string constant that looks like a
    name is interned, and there is one interned string per text, so the
    class name is that very object exactly when it is interned and has the
    same text. *)
Definition class_name_is (c : constraint_obj) (literal : string) : bool :=
  class_name_interned c && String.eqb (class_name c) literal.

(** ** Native compute objects

    The compute classes live in the native modules [_hoomd] and [_md].  A
    native object is represented by the constructor call that built it and
    the method calls it has received since, in order. *)
Inductive compute_ctor : Type :=
| ConstForceCompute (g : list nat) (fx fy fz : Scalar)
| ActiveForceCompute (g : list nat) (seed : Z) (f_lst : option (list pyval))
    (orientation_link : bool) (rotation_diff : Scalar)
    (P : Scalar3) (rx ry rz : Scalar)
| ActiveForceComputeGPU (g : list nat) (seed : Z) (f_lst : option (list pyval))
    (orientation_link : bool) (rotation_diff : Scalar)
    (P : Scalar3) (rx ry rz : Scalar)
| ConstExternalFieldDipoleForceCompute (field_x field_y field_z p : Scalar).

Inductive compute_call : Type :=
| setForce (fx fy fz : Scalar)
| setGroupForce (g : list nat) (fx fy fz : Scalar)
| native_benchmark (n : Z).

Record compute : Type := Compute {
  built : compute_ctor;
  calls : list compute_call
}.

(** ** Python force objects *)

Definition loc : Type := nat.   (* identity of a Python force object *)
Definition cloc : Type := nat.  (* identity of a native compute object *)

(** Attributes the derived classes store next to the base-class ones. *)
Inductive value : Type :=
| VNone
| VScalar (x : Scalar)
| VInt (z : Z)
| VBool (b : bool)
| VNames (l : list string)
| VGroup (g : group)
| VConstraint (c : constraint_obj).

Record force_obj : Type := ForceObj {
  name : string;
  cpp_force : option cloc;
  force_name : string;
  enabled : bool;
  log : bool;
  attrs : gmap string value
}.

Definition set_cpp_force (c : option cloc) (o : force_obj) : force_obj :=
  ForceObj (name o) c (force_name o) (enabled o) (log o) (attrs o).
Definition set_enabled (b : bool) (o : force_obj) : force_obj :=
  ForceObj (name o) (cpp_force o) (force_name o) b (log o) (attrs o).
Definition set_log (b : bool) (o : force_obj) : force_obj :=
  ForceObj (name o) (cpp_force o) (force_name o) (enabled o) b (attrs o).
Definition set_attr (k : string) (v : value) (o : force_obj) : force_obj :=
  ForceObj (name o) (cpp_force o) (force_name o) (enabled o) (log o)
           (<[k := v]> (attrs o)).

(** ** The world *)

Inductive message : Type :=
| status_line
| error (text : string)
| warning (text : string).

Record world : Type := World {
  initialized : bool;              (* hoomd.init.is_initialized() *)
  cuda_enabled : bool;             (* hoomd.context.exec_conf.isCUDAEnabled() *)
  cur_id : nat;                    (* _force.cur_id *)
  forces : list loc;               (* hoomd.context.current.forces *)
  group_all : group;               (* hoomd.context.current.group_all *)
  system : gmap string cloc;       (* computes of hoomd.context.current.system *)
  objs : gmap loc force_obj;       (* the Python force objects *)
  computes : gmap cloc compute;    (* the native compute objects *)
  msgs : list message              (* what went to hoomd.context.msg and stdout *)
}.

Definition with_cur_id (n : nat) (w : world) : world :=
  World (initialized w) (cuda_enabled w) n (forces w) (group_all w)
        (system w) (objs w) (computes w) (msgs w).
Definition with_forces (l : list loc) (w : world) : world :=
  World (initialized w) (cuda_enabled w) (cur_id w) l (group_all w)
        (system w) (objs w) (computes w) (msgs w).
Definition with_system (s : gmap string cloc) (w : world) : world :=
  World (initialized w) (cuda_enabled w) (cur_id w) (forces w) (group_all w)
        s (objs w) (computes w) (msgs w).
Definition with_objs (h : gmap loc force_obj) (w : world) : world :=
  World (initialized w) (cuda_enabled w) (cur_id w) (forces w) (group_all w)
        (system w) h (computes w) (msgs w).
Definition with_computes (h : gmap cloc compute) (w : world) : world :=
  World (initialized w) (cuda_enabled w) (cur_id w) (forces w) (group_all w)
        (system w) (objs w) h (msgs w).
Definition with_msgs (l : list message) (w : world) : world :=
  World (initialized w) (cuda_enabled w) (cur_id w) (forces w) (group_all w)
        (system w) (objs w) (computes w) l.

(** ** Exceptions and the monad of Python statements *)

Inductive exn : Type :=
| RuntimeError (text : string)
| AttributeError (text : string)
| InvalidConfiguration (text : string)
| InvalidInput (text : string).

Inductive outcome (A : Type) : Type :=
| Return (a : A)
| Raise (e : exn).
Arguments Return {A} a.
Arguments Raise {A} e.

Definition Py (A : Type) : Type := world -> world * outcome A.

Definition ret {A} (a : A) : Py A := fun w => (w, Return a).
Definition raise {A} (e : exn) : Py A := fun w => (w, Raise e).
Definition bind {A B} (m : Py A) (k : A -> Py B) : Py B :=
  fun w => match m w with
           | (w', Return a) => k a w'
           | (w', Raise e) => (w', Raise e)
           end.
Definition gets {A} (f : world -> A) : Py A := fun w => (w, Return (f w)).
Definition modify (f : world -> world) : Py unit := fun w => (f w, Return tt).

Declare Scope py_scope.
Delimit Scope py_scope with py.
Notation "x <- m ;; k" := (bind m (fun x => k))
  (at level 100, m at next level, right associativity) : py_scope.
Notation "m ;; k" := (bind m (fun _ => k))
  (at level 100, right associativity) : py_scope.
Local Open Scope py_scope.

Definition raised {A} (r : world * outcome A) : Prop :=
  exists e, r.2 = Raise e.

(** ** Helpers outside the module *)

(** [hoomd.util.print_status_line()]: echoes the script line. *)
Definition print_status_line : Py unit :=
  modify (fun w => with_msgs (msgs w ++ [status_line]) w).

Definition msg_error (text : string) : Py unit :=
  modify (fun w => with_msgs (msgs w ++ [error text]) w).

Definition msg_warning (text : string) : Py unit :=
  modify (fun w => with_msgs (msgs w ++ [warning text]) w).

(** Modelled from the spec: the native registry [System] behind
    [hoomd.context.current.system] is not part of the scripting layer.  The
    spec has a disabled force's compute removed and, on re-enabling,
    restored; the registry is a finite map from force names to computes,
    [addCompute] binds a name and [removeCompute] unbinds it. *)
Definition addCompute (c : cloc) (nm : string) : Py unit :=
  modify (fun w => with_system (<[nm := c]> (system w)) w).

Definition removeCompute (nm : string) : Py unit :=
  modify (fun w => with_system (delete nm (system w)) w).

(** Allocation of a Python object / of a native object: an identity no
    live object has. *)
Definition unused {A} (m : gmap nat A) : nat := fresh (dom m).
Global Arguments unused : simpl never.

Definition new_loc (w : world) : loc := unused (objs w).
Definition new_cloc (w : world) : cloc := unused (computes w).

Definition new_compute (b : compute_ctor) : Py cloc :=
  fun w => let c := new_cloc w in
           (with_computes (<[c := Compute b []]> (computes w)) w, Return c).

(** Attribute access on [self]. *)
Definition getattr {A} (self : loc) (f : force_obj -> A) : Py A :=
  fun w => match objs w !! self with
           | Some o => (w, Return (f o))
           | None => (w, Raise (AttributeError "no such object"))
           end.

Definition setattr (self : loc) (f : force_obj -> force_obj) : Py unit :=
  fun w => match objs w !! self with
           | Some o => (with_objs (<[self := f o]> (objs w)) w, Return tt)
           | None => (w, Raise (AttributeError "no such object"))
           end.

(** ["force%d" % id] *)
Definition format_force_name (id : nat) : string :=
  "force" ++ NilEmpty.string_of_uint (Nat.to_uint id).

(** ** class _force *)

(** [hoomd.meta._metadata.__init__(self)], the constructor of the base
    class of [_force]: it belongs to another module and sets none of the
    attributes kept here. *)
Definition _metadata__init__ (self : loc) : Py unit := ret tt.

(** [_force.__init__(self, name=None)] *)
Definition _force__init__ (self : loc) (nm : option string) : Py unit :=
  init <- gets initialized ;;
  (if negb init then
     msg_error "Cannot create force before initialization\n" ;;
     raise (RuntimeError "Error creating force")
   else ret tt) ;;
  id <- gets cur_id ;;
  modify (with_cur_id (id + 1)) ;;
  modify (fun w => with_objs
    (<[self := ForceObj (match nm with None => "" | Some n => "_" ++ n end)
                        None (format_force_name id) true true ∅]> (objs w)) w) ;;
  modify (fun w => with_forces (forces w ++ [self]) w) ;;
  _metadata__init__ self.

(** [_force.check_initialization(self)] *)
Definition check_initialization (self : loc) : Py unit :=
  c <- getattr self cpp_force ;;
  match c with
  | None =>
      msg_error "Bug in hoomd_script: cpp_force not set, please report\n" ;;
      raise (RuntimeError "")
  | Some _ => ret tt
  end.

(** [_force.disable(self, log=False)] *)
Definition disable (self : loc) (log_ : bool) : Py unit :=
  print_status_line ;;
  check_initialization self ;;
  en <- getattr self enabled ;;
  if negb en then
    msg_warning "Ignoring command to disable a force that is already disabled"
  else
    setattr self (set_enabled false) ;;
    setattr self (set_log log_) ;;
    if negb log_ then
      nm <- getattr self force_name ;;
      removeCompute nm
    else ret tt.

(** [_force.enable(self)] *)
Definition enable (self : loc) : Py unit :=
  print_status_line ;;
  check_initialization self ;;
  en <- getattr self enabled ;;
  if en then
    msg_warning "Ignoring command to enable a force that is already enabled"
  else
    lg <- getattr self log ;;
    (if negb lg then
       c <- getattr self cpp_force ;;
       nm <- getattr self force_name ;;
       match c with
       | Some c => addCompute c nm
       | None => ret tt   (* not reached: check_initialization has raised *)
       end
     else ret tt) ;;
    setattr self (set_enabled true) ;;
    setattr self (set_log true).

(** A method call on a native compute: it is appended to the calls the
    object has received. *)
Definition native_call (c : cloc) (call : compute_call) : Py unit :=
  modify (fun w => with_computes
    (alter (fun cm => Compute (built cm) (calls cm ++ [call])) c (computes w)) w).

(** [int(n)]: truncation towards zero. *)
Definition int (n : Scalar) : Z := Z.quot (Qnum n) (Z.pos (Qden n)).

(** What [cpp_force.benchmark(k)] hands back is a measured wall time; the
    embedding keeps it symbolic. *)
Inductive bench_time : Type := average_time (c : cloc) (k : Z).

(** [_force.benchmark(self, n)] *)
Definition benchmark (self : loc) (n : Scalar) : Py bench_time :=
  check_initialization self ;;
  c <- getattr self cpp_force ;;
  match c with
  | Some c => native_call c (native_benchmark (int n)) ;; ret (average_time c (int n))
  | None => raise (AttributeError "'NoneType' object has no attribute 'benchmark'")
  end.

(** Instantiating a class: a fresh object is handed to [__init__]; the
    caller gets the object only if [__init__] returns. *)
Definition instantiate (init : loc -> Py unit) : Py loc :=
  self <- gets new_loc ;;
  init self ;;
  ret self.

(** ** class constant(_force) *)

(** Modelled from the spec: the native constructor
    [_hoomd.ConstForceCompute]; the spec names no way for it to fail, so it
    builds the compute from its arguments. *)
Definition ConstForceCompute__new (g : list nat) (fx fy fz : Scalar) : Py cloc :=
  new_compute (ConstForceCompute g fx fy fz).

(** [constant.__init__(self, fx, fy, fz, group=None)] *)
Definition constant__init__ (self : loc) (fx fy fz : Scalar) (grp : option group)
  : Py unit :=
  print_status_line ;;
  _force__init__ self None ;;
  c <- match grp with
       | Some g => ConstForceCompute__new (cpp_group g) fx fy fz
       | None => all <- gets group_all ;;
                 ConstForceCompute__new (cpp_group all) fx fy fz
       end ;;
  setattr self (set_cpp_force (Some c)) ;;
  setattr self (set_attr "metadata_fields" (VNames ["fx"; "fy"; "fz"])) ;;
  setattr self (set_attr "fx" (VScalar fx)) ;;
  setattr self (set_attr "fy" (VScalar fy)) ;;
  setattr self (set_attr "fz" (VScalar fz)) ;;
  match grp with
  | Some g =>
      setattr self (set_attr "metadata_fields" (VNames ["fx"; "fy"; "fz"; "group"])) ;;
      setattr self (set_attr "group" (VGroup g))
  | None => ret tt
  end ;;
  nm <- getattr self force_name ;;
  addCompute c nm.

(** [constant.set_force(self, fx, fy, fz, group=None)] *)
Definition set_force (self : loc) (fx fy fz : Scalar) (grp : option group)
  : Py unit :=
  check_initialization self ;;
  c <- getattr self cpp_force ;;
  match c with
  | Some c =>
      match grp with
      | Some g => native_call c (setGroupForce (cpp_group g) fx fy fz)
      | None => native_call c (setForce fx fy fz)
      end
  | None => raise (AttributeError "'NoneType' object has no attribute 'setForce'")
  end ;;
  setattr self (set_attr "fx" (VScalar fx)) ;;
  setattr self (set_attr "fy" (VScalar fy)) ;;
  setattr self (set_attr "fz" (VScalar fz)).

(** ** class active(_force) *)

(** The input check on one element of [f_lst]:
    [type(element) != tuple or len(element) != 3]. *)
Definition malformed (element : pyval) : bool :=
  if negb (pytype_eqb (type element) tuple) then true
  else match len element with
       | Some n => negb (Nat.eqb n 3)
       | None => true
       end.

(** [for element in f_lst: if ...: raise RuntimeError(...)] *)
Fixpoint check_f_lst (f_lst : list pyval) : Py unit :=
  match f_lst with
  | [] => ret tt
  | element :: rest =>
      if malformed element then
        raise (RuntimeError
          "Active force passed in should be a list of 3-tuples (fx, fy, fz)")
      else check_f_lst rest
  end.

Definition negative (x : Scalar) : bool := (Qnum x <? 0)%Z.
Definition is_zero (x : Scalar) : bool := (Qnum x =? 0)%Z.

Definition zero_magnitude (v : pyval) : bool :=
  match v with
  | PyTuple [PyNum x; PyNum y; PyNum z] => is_zero x && is_zero y && is_zero z
  | _ => false
  end.

(** Modelled from the spec: the native constructors
    [_md.ActiveForceCompute] and [_md.ActiveForceComputeGPU] ([gpu] tells
    which).  Section 4.1 of the spec gives the engine's error conditions:
    InvalidConfiguration if [D_r] is negative or if the group is empty,
    InvalidInput if an initial vector has zero magnitude; otherwise the
    engine is built from its arguments. *)
Definition ActiveForceCompute__new (gpu : bool) (g : list nat) (seed : Z)
    (f_lst : option (list pyval)) (orientation_link : bool)
    (rotation_diff : Scalar) (P : Scalar3) (rx ry rz : Scalar) : Py cloc :=
  if negative rotation_diff then
    raise (InvalidConfiguration "rotational diffusion constant is negative")
  else if Nat.eqb (length g) 0 then
    raise (InvalidConfiguration "the group is empty")
  else if existsb zero_magnitude (default [] f_lst) then
    raise (InvalidInput "an initial force vector has zero magnitude")
  else
    new_compute
      ((if gpu then ActiveForceComputeGPU else ActiveForceCompute)
         g seed f_lst orientation_link rotation_diff P rx ry rz).

Definition value_of_constraint (c : option constraint_obj) : value :=
  match c with Some c => VConstraint c | None => VNone end.

(** [active.__init__(self, seed, f_lst, group, orientation_link=True,
                     rotation_diff=0, constraint=None)] *)
Definition active__init__ (self : loc) (seed : Z) (f_lst : option (list pyval))
    (grp : group) (orientation_link : bool) (rotation_diff : Scalar)
    (constraint : option constraint_obj) : Py unit :=
  print_status_line ;;
  _force__init__ self None ;;
  match f_lst with
  | Some l => check_f_lst l
  | None => ret tt
  end ;;
  surface <-
    match constraint with
    | Some c =>
        (* [constraint.__class__.__name__ is "constraint_ellipsoid"] *)
        if class_name_is c "constraint_ellipsoid" then
          ret (constraint_P c, constraint_rx c, constraint_ry c, constraint_rz c)
        else
          raise (RuntimeError
            "Active force constraint is not accepted (currently only accepts ellipsoids)")
    | None => ret (make_scalar3 0 0 0, 0, 0, 0)%Q
    end ;;
  let '(P, rx, ry, rz) := surface in
  gpu <- gets cuda_enabled ;;
  c <- ActiveForceCompute__new gpu (cpp_group grp) seed f_lst orientation_link
         rotation_diff P rx ry rz ;;
  setattr self (set_cpp_force (Some c)) ;;
  setattr self (set_attr "metdata_fields"
    (VNames ["group"; "seed"; "orientation_link"; "rotation_diff"; "constraint"])) ;;
  setattr self (set_attr "group" (VGroup grp)) ;;
  setattr self (set_attr "seed" (VInt seed)) ;;
  setattr self (set_attr "orientation_link" (VBool orientation_link)) ;;
  setattr self (set_attr "rotation_diff" (VScalar rotation_diff)) ;;
  setattr self (set_attr "constraint" (value_of_constraint constraint)) ;;
  nm <- getattr self force_name ;;
  addCompute c nm.

(** ** class const_external_field_dipole(_force) *)

(** Modelled from the spec: the native constructor
    [_md.ConstExternalFieldDipoleForceCompute]; the spec names no way for
    it to fail. *)
Definition ConstExternalFieldDipoleForceCompute__new
    (field_x field_y field_z p : Scalar) : Py cloc :=
  new_compute (ConstExternalFieldDipoleForceCompute field_x field_y field_z p).

(** [const_external_field_dipole.__init__(self, field_x, field_y, field_z, p)] *)
Definition const_external_field_dipole__init__ (self : loc)
    (field_x field_y field_z p : Scalar) : Py unit :=
  print_status_line ;;
  _force__init__ self None ;;
  c <- ConstExternalFieldDipoleForceCompute__new field_x field_y field_z p ;;
  setattr self (set_cpp_force (Some c)) ;;
  nm <- getattr self force_name ;;
  addCompute c nm ;;
  setattr self (set_attr "metdata_fields" (VNames ["field_x"; "field_y"; "field_z"])) ;;
  setattr self (set_attr "field_x" (VScalar field_x)) ;;
  setattr self (set_attr "field_y" (VScalar field_y)) ;;
  setattr self (set_attr "field_z" (VScalar field_z)).

(** The class calls of a script. *)
Definition _force (nm : option string) : Py loc :=
  instantiate (fun self => _force__init__ self nm).

Definition constant (fx fy fz : Scalar) (grp : option group) : Py loc :=
  instantiate (fun self => constant__init__ self fx fy fz grp).

Definition active (seed : Z) (f_lst : option (list pyval)) (grp : group)
    (orientation_link : bool) (rotation_diff : Scalar)
    (constraint : option constraint_obj) : Py loc :=
  instantiate (fun self =>
    active__init__ self seed f_lst grp orientation_link rotation_diff constraint).

Definition const_external_field_dipole (field_x field_y field_z p : Scalar)
  : Py loc :=
  instantiate (fun self =>
    const_external_field_dipole__init__ self field_x field_y field_z p).

(** ** Reading the state of a force *)

(** Modelled from the spec: the integrator that sums the net force is not
    part of this module.  Per the spec (and the comment on [_force]) a
    force is added to the net force on each particle while it is enabled;
    a disabled one contributes nothing from the next step on. *)
Definition contributes_to_net_force (w : world) (self : loc) : bool :=
  match objs w !! self with
  | Some o => enabled o
  | None => false
  end.

(** The compute of a force is available for logging while the system holds
    it under the force's name. *)
Definition registered (w : world) (self : loc) : Prop :=
  exists o c, objs w !! self = Some o /\ cpp_force o = Some c /\
              system w !! force_name o = Some c.

(** ** Scripts

    A script creates forces and calls their methods one after the other.
    An exception ends the statement that raised it, not the session: what
    the statement did to the world before raising stays done. *)
Inductive command : Type :=
| new_force (nm : option string)
| new_constant (fx fy fz : Scalar) (grp : option group)
| new_active (seed : Z) (f_lst : option (list pyval)) (grp : group)
    (orientation_link : bool) (rotation_diff : Scalar) (constraint : option constraint_obj)
| new_const_external_field_dipole (field_x field_y field_z p : Scalar)
| call_disable (self : loc) (log_ : bool)
| call_enable (self : loc)
| call_benchmark (self : loc) (n : Scalar)
| call_set_force (self : loc) (fx fy fz : Scalar) (grp : option group).

Definition exec (c : command) (w : world) : world :=
  match c with
  | new_force nm => (_force nm w).1
  | new_constant fx fy fz grp => (constant fx fy fz grp w).1
  | new_active seed f_lst grp ol rd cn => (active seed f_lst grp ol rd cn w).1
  | new_const_external_field_dipole fx fy fz p =>
      (const_external_field_dipole fx fy fz p w).1
  | call_disable self log_ => (disable self log_ w).1
  | call_enable self => (enable self w).1
  | call_benchmark self n => (benchmark self n w).1
  | call_set_force self fx fy fz grp => (set_force self fx fy fz grp w).1
  end.

Definition run (script : list command) (w : world) : world :=
  fold_left (fun w c => exec c w) script w.

(** The invariant on the two flags of a force. *)
Definition flags_ok (o : force_obj) : Prop := enabled o = true -> log o = true.

Definition heap_ok (w : world) : Prop :=
  forall l o, objs w !! l = Some o -> flags_ok o.

Definition preserves {A} (m : Py A) : Prop :=
  forall w, heap_ok w -> heap_ok (m w).1.

(** An element of [f_lst] of the expected shape. *)
Definition is_3tuple (element : pyval) : Prop :=
  exists a b c, element = PyTuple [a; b; c].

(** What [active.__init__] stores on the force, on top of the base class. *)
Definition active_attrs (seed : Z) (grp : group) (orientation_link : bool)
    (rotation_diff : Scalar) (constraint : option constraint_obj)
  : gmap string value :=
  <["constraint" := value_of_constraint constraint]>
    (<["rotation_diff" := VScalar rotation_diff]>
       (<["orientation_link" := VBool orientation_link]>
          (<["seed" := VInt seed]>
             (<["group" := VGroup grp]>
                (<["metdata_fields" :=
                     VNames ["group"; "seed"; "orientation_link";
                             "rotation_diff"; "constraint"]]> ∅))))).

(** The constraint surface [active.__init__] hands to the engine. *)
Definition surface_of (constraint : option constraint_obj)
  : Scalar3 * Scalar * Scalar * Scalar :=
  match constraint with
  | Some c => (constraint_P c, constraint_rx c, constraint_ry c, constraint_rz c)
  | None => (make_scalar3 0 0 0, 0, 0, 0)%Q
  end.

(** The messages of the control calls. *)
Definition bug_report : message :=
  error "Bug in hoomd_script: cpp_force not set, please report\n".
Definition already_disabled : message :=
  warning "Ignoring command to disable a force that is already disabled".
Definition already_enabled : message :=
  warning "Ignoring command to enable a force that is already enabled".

(** ** Sample worlds *)

(** A session right after [hoomd.init]: three particles, no force yet. *)
Definition fresh_session : world :=
  World true false 0 [] (Group "all" [0; 1; 2]) ∅ ∅ ∅ [].

(** ... and after [const = force.constant(fx=0.4, fy=1.0, fz=0.5)]. *)
Definition session_with_constant : world :=
  Eval vm_compute in (constant (4 # 10)%Q 1%Q (1 # 2)%Q None fresh_session).1.

Definition sample_constant : force_obj :=
  Eval vm_compute in
    default (ForceObj "" None "" false false ∅) (objs session_with_constant !! 0).

(** ... after [const.disable(log=True)] on top of that. *)
Definition session_with_disabled : world :=
  Eval vm_compute in (disable 0 true session_with_constant).1.

Definition sample_disabled : force_obj :=
  Eval vm_compute in
    default (ForceObj "" None "" false false ∅) (objs session_with_disabled !! 0).

(** A session in which [force.active(seed=13, f_lst=[(3, 0)], group=all)]
    raised: the half-built force stays in [hoomd.context.current.forces]. *)
Definition session_with_failed_active : world :=
  Eval vm_compute in
    (active 13 (Some [PyTuple [PyNum 3%Q; PyNum 0%Q]]) (Group "all" [0; 1; 2])
            true 0%Q None fresh_session).1.

Definition half_built_force : force_obj :=
  Eval vm_compute in
    default (ForceObj "" (Some 0) "" false false ∅)
            (objs session_with_failed_active !! 0).

Definition sample_compute : compute :=
  Compute (ConstForceCompute [0; 1; 2] (4 # 10)%Q 1%Q (1 # 2)%Q) [].

(** ** _force.get_metadata *)

(** What a metadata dictionary holds: the flags and the name [_force]
    puts there, and whatever the base class collected. *)
Inductive metadata_value : Type :=
| MetaBool (b : bool)
| MetaStr (s : string)
| MetaAttr (v : value).

(** [_force.get_metadata(self)].  [base] is the dictionary
    [hoomd.meta._metadata.get_metadata(self)] handed back; that method
    belongs to another module.  [self.name is not ""] compares with the
    empty string. *)
Definition get_metadata (self : loc) (base : gmap string metadata_value)
  : Py (gmap string metadata_value) :=
  en <- getattr self enabled ;;
  let data := <["enabled" := MetaBool en]> base in
  lg <- getattr self log ;;
  let data := <["log" := MetaBool lg]> data in
  nm <- getattr self name ;;
  if negb (String.eqb nm "") then ret (<["name" := MetaStr nm]> data)
  else ret data.

(** ** What a class call does to the session *)

(** Either the call raised before the base class built anything and only
    messages were written, or exactly one new object was appended to
    [hoomd.context.current.forces] under the next id, enabled and logged;
    that object is then either left without compute, or holds a new
    compute registered under its force name and the call returned it.  The
    base class leaves every object it returns without compute; a derived
    class leaves an object without compute only when it raises. *)
Definition constructs (derived : bool) (w : world) (r : world * outcome loc)
  : Prop :=
  (raised r
   /\ cur_id r.1 = cur_id w /\ forces r.1 = forces w /\ objs r.1 = objs w
   /\ system r.1 = system w /\ computes r.1 = computes w)
  \/ (exists o,
        cur_id r.1 = cur_id w + 1
        /\ forces r.1 = (forces w ++ [new_loc w])%list
        /\ objs r.1 = <[new_loc w := o]> (objs w)
        /\ force_name o = format_force_name (cur_id w)
        /\ enabled o = true /\ log o = true
        /\ ((cpp_force o = None
             /\ system r.1 = system w /\ computes r.1 = computes w
             /\ if derived then raised r else r.2 = Return (new_loc w))
            \/ (r.2 = Return (new_loc w) /\ cpp_force o = Some (new_cloc w)
                /\ system r.1 = <[force_name o := new_cloc w]> (system w)
                /\ exists cm, computes r.1 = <[new_cloc w := cm]> (computes w)))).

(** The force a method command is called on. *)
Definition receiver (c : command) : option loc :=
  match c with
  | call_disable self _ | call_enable self | call_benchmark self _
  | call_set_force self _ _ _ _ => Some self
  | _ => None
  end.

(** A session in which no force has been created; [_force.cur_id] is a
    class attribute and may have been advanced before. *)
Definition no_force_yet (w : world) : Prop := forces w = [] /\ objs w = ∅.

(** What holds of the forces of a session whose id counter stood at [n0]
    when the first of them was created. *)
Record consistent (n0 : nat) (w : world) : Prop := Consistent {
  ids_counted : cur_id w = n0 + length (forces w);
  forces_named : forall i l, forces w !! i = Some l ->
    exists o, objs w !! l = Some o /\ force_name o = format_force_name (n0 + i);
  objs_listed : forall l o, objs w !! l = Some o -> l ∈ forces w;
  flags_kept : heap_ok w;
  log_registered : forall l o c,
    objs w !! l = Some o -> cpp_force o = Some c ->
    system w !! force_name o = if log o then Some c else None
}.

(** ** hoomd.tune.custom_tuner *)

Module custom_tuner.

(** A Python object as [isinstance] sees it: the classes of its type's
    method resolution order. *)
Record pyobject : Type := PyObject { object_id : nat; mro : list string }.

Definition Action : string := "hoomd.custom.Action".

Definition isinstance (x : pyobject) (cls : string) : bool :=
  bool_decide (cls ∈ mro x).

(** A tuner object; [_action] is absent until something sets it. *)
Record tuner_obj : Type := TunerObj { _action : option pyobject }.

Inductive tuner_exn : Type :=
| ValueError (text : string)
| NoAttribute (attr : string).

(** [_TunerProperty.tuner] (getter) *)
Definition tuner (self : tuner_obj) : tuner_exn + pyobject :=
  match _action self with
  | Some a => inr a
  | None => inl (NoAttribute "_action")
  end.

(** [_TunerProperty.tuner] (setter): the object after the assignment, and
    the exception if one was raised. *)
Definition set_tuner (self : tuner_obj) (x : pyobject)
  : tuner_obj * option tuner_exn :=
  if isinstance x Action then (TunerObj (Some x), None)
  else (self, Some (ValueError "updater must be an instance of hoomd.custom.Action")).

(** A run of assignments [self.tuner = x], one after the other: the object
    at the end and, for each assignment in turn, the exception it raised
    if it raised one. *)
Definition assign_all (self : tuner_obj) (xs : list pyobject)
  : tuner_obj * list (option tuner_exn) :=
  fold_left (fun st x => let r := set_tuner st.1 x in (r.1, st.2 ++ [r.2])%list)
            xs (self, []).

End custom_tuner.

(** ** More sample worlds *)

(** A session before [hoomd.init]. *)
Definition uninitialized_session : world :=
  World false false 0 [] (Group "all" []) ∅ ∅ ∅ [].

(** A script that fails to build an active force, builds a constant force
    and a dipole field, and toggles them. *)
Definition sample_script : list command :=
  [ new_active 13 (Some [PyNum 3%Q]) (Group "all" [0; 1; 2]) true 0%Q None;
    new_constant (4 # 10)%Q 1%Q (1 # 2)%Q None;
    new_const_external_field_dipole 0%Q 1%Q (1 # 2)%Q 1%Q;
    call_disable 1 false;
    call_disable 2 true;
    call_set_force 1 0%Q 0%Q 1%Q None ].

Definition sample_ellipsoid : constraint_obj :=
  Constraint "constraint_ellipsoid" (make_scalar3 0 0 0)%Q 3%Q 4%Q 5%Q.

(** * Properties *)

(** Resolve the store lookups a run of statements performs, one at a time. *)
Ltac py_lookups :=
  simpl;
  repeat (first
    [ rewrite lookup_insert_eq
    | match goal with
      | H : _ !! _ = Some _ |- _ => rewrite H
      | H : _ !! _ = None |- _ => rewrite H
      end ]; simpl).

Section Toggling.

Variables (w : world) (self : loc) (o : force_obj).
Hypothesis Hself : objs w !! self = Some o.

Lemma check_initialization_eq :
  check_initialization self w =
  match cpp_force o with
  | Some _ => (w, Return tt)
  | None =>
      (with_msgs
         (msgs w ++ [error "Bug in hoomd_script: cpp_force not set, please report\n"]) w,
       Raise (RuntimeError ""))
  end.
Proof.
  unfold check_initialization, bind, getattr. rewrite Hself.
  destruct (cpp_force o); reflexivity.
Qed.

Lemma disable_eq (log_ : bool) :
  disable self log_ w =
  let w1 := with_msgs (msgs w ++ [status_line]) w in
  match cpp_force o with
  | None =>
      (with_msgs
         (msgs w1 ++ [error "Bug in hoomd_script: cpp_force not set, please report\n"]) w1,
       Raise (RuntimeError ""))
  | Some _ =>
      if enabled o then
        (with_system
           (if log_ then system w else delete (force_name o) (system w))
           (with_objs (<[self := set_log log_ (set_enabled false o)]> (objs w)) w1),
         Return tt)
      else
        (with_msgs
           (msgs w1 ++
            [warning "Ignoring command to disable a force that is already disabled"])
           w1,
         Return tt)
  end.
Proof.
  destruct w as [ini cu id fs ga sy ob co ms]; simpl in *.
  unfold disable, check_initialization, bind, getattr, print_status_line,
    msg_error, msg_warning, removeCompute, setattr, modify, ret, raise; simpl.
  py_lookups.
  destruct (cpp_force o) eqn:Hc; simpl; [|reflexivity].
  py_lookups.
  destruct (enabled o) eqn:He; simpl; [|reflexivity].
  py_lookups. rewrite insert_insert_eq.
  destruct log_; simpl; py_lookups; reflexivity.
Qed.

Lemma enable_eq :
  enable self w =
  let w1 := with_msgs (msgs w ++ [status_line]) w in
  match cpp_force o with
  | None =>
      (with_msgs
         (msgs w1 ++ [error "Bug in hoomd_script: cpp_force not set, please report\n"]) w1,
       Raise (RuntimeError ""))
  | Some c =>
      if enabled o then
        (with_msgs
           (msgs w1 ++
            [warning "Ignoring command to enable a force that is already enabled"])
           w1,
         Return tt)
      else
        (with_objs (<[self := set_log true (set_enabled true o)]> (objs w))
           (with_system
              (if log o then system w else <[force_name o := c]> (system w)) w1),
         Return tt)
  end.
Proof.
  destruct w as [ini cu id fs ga sy ob co ms]; simpl in *.
  unfold enable, check_initialization, bind, getattr, print_status_line,
    msg_error, msg_warning, addCompute, setattr, modify, ret, raise; simpl.
  py_lookups.
  destruct (cpp_force o) eqn:Hc; simpl; [|reflexivity].
  py_lookups.
  destruct (enabled o) eqn:He; simpl; [reflexivity|].
  py_lookups.
  destruct (log o) eqn:Hl; simpl; py_lookups; rewrite ?Hc; simpl; py_lookups;
    rewrite insert_insert_eq; reflexivity.
Qed.

Lemma benchmark_eq (n : Scalar) :
  benchmark self n w =
  match cpp_force o with
  | None =>
      (with_msgs
         (msgs w ++ [error "Bug in hoomd_script: cpp_force not set, please report\n"]) w,
       Raise (RuntimeError ""))
  | Some c =>
      (with_computes
         (alter (fun cm => Compute (built cm) (calls cm ++ [native_benchmark (int n)]))
                c (computes w)) w,
       Return (average_time c (int n)))
  end.
Proof.
  destruct w as [ini cu id fs ga sy ob co ms]; simpl in *.
  unfold benchmark, check_initialization, bind, getattr, msg_error,
    native_call, modify, ret, raise; simpl.
  py_lookups.
  destruct (cpp_force o) eqn:Hc; simpl; [|reflexivity].
  py_lookups. rewrite Hc. reflexivity.
Qed.

Lemma set_force_eq (fx fy fz : Scalar) (grp : option group) :
  set_force self fx fy fz grp w =
  match cpp_force o with
  | None =>
      (with_msgs
         (msgs w ++ [error "Bug in hoomd_script: cpp_force not set, please report\n"]) w,
       Raise (RuntimeError ""))
  | Some c =>
      let call := match grp with
                  | Some g => setGroupForce (cpp_group g) fx fy fz
                  | None => setForce fx fy fz
                  end in
      (with_objs
         (<[self := set_attr "fz" (VScalar fz)
                      (set_attr "fy" (VScalar fy)
                         (set_attr "fx" (VScalar fx) o))]> (objs w))
         (with_computes
            (alter (fun cm => Compute (built cm) (calls cm ++ [call])) c (computes w))
            w),
       Return tt)
  end.
Proof.
  destruct w as [ini cu id fs ga sy ob co ms]; simpl in *.
  unfold set_force, check_initialization, bind, getattr, setattr, msg_error,
    native_call, modify, ret, raise; simpl.
  py_lookups.
  destruct (cpp_force o) eqn:Hc; simpl; [|reflexivity].
  py_lookups. rewrite Hc.
  destruct grp; simpl; py_lookups; rewrite !insert_insert_eq; reflexivity.
Qed.

End Toggling.

(** ** The embedding at work *)

Example force_name_of_id : format_force_name 12 = "force12".
Proof. reflexivity. Qed.

Example int_truncates :
  int (7 # 2)%Q = 3%Z /\ int (- (7 # 2))%Q = (-3)%Z /\ int 100%Q = 100%Z.
Proof. repeat split. Qed.

Example malformed_elements :
  malformed (PyTuple [PyNum 3%Q; PyNum 0%Q; PyNum 0%Q]) = false
  /\ malformed (PyTuple [PyNum 3%Q; PyNum 0%Q]) = true
  /\ malformed (PyList [PyNum 3%Q; PyNum 0%Q; PyNum 0%Q]) = true
  /\ malformed (PyNum 3%Q) = true.
Proof. repeat split. Qed.

Example constant_registers_itself :
  forces session_with_constant = [0]
  /\ cur_id session_with_constant = 1
  /\ system session_with_constant !! "force0" = Some 0
  /\ computes session_with_constant !! 0 = Some sample_compute
  /\ enabled sample_constant = true /\ log sample_constant = true
  /\ attrs sample_constant !! "fx" = Some (VScalar (4 # 10)%Q).
Proof. repeat split. Qed.

Example failed_active_leaves_half_built_force :
  forces session_with_failed_active = [0]
  /\ cur_id session_with_failed_active = 1
  /\ system session_with_failed_active = ∅
  /\ cpp_force half_built_force = None
  /\ enabled half_built_force = true.
Proof. repeat split. Qed.

Example before_initialization :
  (constant 1%Q 0%Q 0%Q None
     (World false false 0 [] (Group "all" []) ∅ ∅ ∅ [])).2
  = Raise (RuntimeError "Error creating force").
Proof. reflexivity. Qed.

Example equal_name_of_its_own_is_refused :
  (active 7 None (Group "all" [0; 1; 2]) false 0%Q
     (Some (MkConstraint "constraint_ellipsoid" false
              (make_scalar3 0 0 0)%Q 3%Q 4%Q 5%Q))
     fresh_session).2
  = Raise (RuntimeError
      "Active force constraint is not accepted (currently only accepts ellipsoids)").
Proof. reflexivity. Qed.

(** ** Control calls on a force whose compute does not exist *)

(** C4: on a force object whose [cpp_force] is [None], each of [disable],
    [enable], [benchmark] and [set_force] raises [RuntimeError] at its
    initialization check, once: the error is reported one time and nothing
    but the message log has changed when the exception leaves the call. *)
Theorem uninitialized_control_call_raises
    (w : world) (self : loc) (o : force_obj) :
  objs w !! self = Some o ->
  cpp_force o = None ->
  (forall log_,
     disable self log_ w =
     (with_msgs ((msgs w ++ [status_line]) ++ [bug_report]) w,
      Raise (RuntimeError "")))
  /\ enable self w =
     (with_msgs ((msgs w ++ [status_line]) ++ [bug_report]) w,
      Raise (RuntimeError ""))
  /\ (forall n,
       benchmark self n w =
       (with_msgs (msgs w ++ [bug_report]) w, Raise (RuntimeError "")))
  /\ (forall fx fy fz grp,
       set_force self fx fy fz grp w =
       (with_msgs (msgs w ++ [bug_report]) w, Raise (RuntimeError ""))).
Proof.
  intros Hself Hnone. repeat split; intros.
  - rewrite (disable_eq w self o Hself), Hnone. destruct w; reflexivity.
  - rewrite (enable_eq w self o Hself), Hnone. destruct w; reflexivity.
  - rewrite (benchmark_eq w self o Hself), Hnone. reflexivity.
  - rewrite (set_force_eq w self o Hself), Hnone. reflexivity.
Qed.

Lemma uninitialized_control_call_raises_witness :
  (disable 0 false session_with_failed_active).2 = Raise (RuntimeError "")
  /\ (enable 0 session_with_failed_active).2 = Raise (RuntimeError "")
  /\ (benchmark 0 100%Q session_with_failed_active).2 = Raise (RuntimeError "")
  /\ (set_force 0 1%Q 0%Q 0%Q None session_with_failed_active).2
     = Raise (RuntimeError "").
Proof.
  destruct (uninitialized_control_call_raises
              session_with_failed_active 0 half_built_force)
    as (Hd & He & Hb & Hs); [reflexivity | reflexivity |].
  rewrite Hd, He, Hb, Hs. repeat split.
Defined.

(** ** Toggling *)

Lemma disable_noop (w : world) (self : loc) (o : force_obj) (c : cloc) :
  objs w !! self = Some o -> cpp_force o = Some c -> enabled o = false ->
  forall log_,
    disable self log_ w =
    (with_msgs ((msgs w ++ [status_line]) ++ [already_disabled]) w, Return tt).
Proof.
  intros Hself Hc He log_. rewrite (disable_eq w self o Hself), Hc, He.
  destruct w; reflexivity.
Qed.

Lemma enable_noop (w : world) (self : loc) (o : force_obj) (c : cloc) :
  objs w !! self = Some o -> cpp_force o = Some c -> enabled o = true ->
  enable self w =
  (with_msgs ((msgs w ++ [status_line]) ++ [already_enabled]) w, Return tt).
Proof.
  intros Hself Hc He. rewrite (enable_eq w self o Hself), Hc, He.
  destruct w; reflexivity.
Qed.

Lemma disable_enabled (w : world) (self : loc) (o : force_obj) (c : cloc) :
  objs w !! self = Some o -> cpp_force o = Some c -> enabled o = true ->
  forall log_,
    disable self log_ w =
    (with_system
       (if log_ then system w else delete (force_name o) (system w))
       (with_objs (<[self := set_log log_ (set_enabled false o)]> (objs w))
          (with_msgs (msgs w ++ [status_line]) w)),
     Return tt).
Proof.
  intros Hself Hc He log_. rewrite (disable_eq w self o Hself), Hc, He.
  reflexivity.
Qed.

Lemma enable_disabled (w : world) (self : loc) (o : force_obj) (c : cloc) :
  objs w !! self = Some o -> cpp_force o = Some c -> enabled o = false ->
  enable self w =
  (with_objs (<[self := set_log true (set_enabled true o)]> (objs w))
     (with_system
        (if log o then system w else <[force_name o := c]> (system w))
        (with_msgs (msgs w ++ [status_line]) w)),
   Return tt).
Proof.
  intros Hself Hc He. rewrite (enable_eq w self o Hself), Hc, He.
  reflexivity.
Qed.

(** C10: on an initialized force, [disable] when already disabled and
    [enable] when already enabled change nothing but the message log, which
    gains the status line and a warning; so a [disable(log=False)] that
    follows a [disable(log=True)] leaves the log flag set and the compute
    registered. *)
Theorem redundant_toggle_is_noop
    (w : world) (self : loc) (o : force_obj) (c : cloc) :
  objs w !! self = Some o ->
  cpp_force o = Some c ->
  (enabled o = false ->
   forall log_,
     disable self log_ w =
     (with_msgs ((msgs w ++ [status_line]) ++ [already_disabled]) w, Return tt))
  /\ (enabled o = true ->
      enable self w =
      (with_msgs ((msgs w ++ [status_line]) ++ [already_enabled]) w, Return tt))
  /\ (enabled o = true ->
      let w1 := (disable self true w).1 in
      let w2 := (disable self false w1).1 in
      objs w2 = objs w1
      /\ log <$> objs w2 !! self = Some true
      /\ enabled <$> objs w2 !! self = Some false
      /\ system w2 = system w
      /\ computes w2 = computes w).
Proof.
  intros Hself Hc. split; [|split].
  - intros He log_. eapply disable_noop; eauto.
  - intros He. eapply enable_noop; eauto.
  - intros He w1 w2.
    pose proof (disable_enabled w self o c Hself Hc He true) as Hd.
    assert (Hw1 : w1 = with_objs (<[self := set_log true (set_enabled false o)]> (objs w))
                         (with_msgs (msgs w ++ [status_line]) w)).
    { subst w1. rewrite Hd. destruct w; reflexivity. }
    assert (Hself1 : objs w1 !! self = Some (set_log true (set_enabled false o))).
    { rewrite Hw1. destruct w; cbn. apply lookup_insert_eq. }
    pose proof (disable_noop w1 self _ c Hself1 Hc eq_refl false) as Hd2.
    assert (Hw2 : w2 = with_msgs ((msgs w1 ++ [status_line]) ++ [already_disabled]) w1).
    { subst w2. rewrite Hd2. reflexivity. }
    rewrite Hw2. repeat split.
    + cbn. rewrite Hself1. reflexivity.
    + cbn. rewrite Hself1. reflexivity.
    + rewrite Hw1. destruct w; reflexivity.
    + rewrite Hw1. destruct w; reflexivity.
Qed.

Lemma redundant_toggle_is_noop_witness :
  (disable 0 false session_with_disabled).2 = Return tt
  /\ objs (disable 0 false session_with_disabled).1 = objs session_with_disabled
  /\ system (disable 0 false session_with_disabled).1 = system session_with_disabled
  /\ (enable 0 session_with_constant).2 = Return tt
  /\ objs (enable 0 session_with_constant).1 = objs session_with_constant
  /\ system (enable 0 session_with_constant).1 = system session_with_constant.
Proof.
  destruct (redundant_toggle_is_noop session_with_disabled 0 sample_disabled 0)
    as (Hd & _ & _); [reflexivity | reflexivity |].
  destruct (redundant_toggle_is_noop session_with_constant 0 sample_constant 0)
    as (_ & He & _); [reflexivity | reflexivity |].
  rewrite (Hd eq_refl false), (He eq_refl). repeat split.
Defined.

(** C2: on an initialized, enabled force, [disable(log=False)] takes the
    compute out of the system, so the force no longer contributes; the
    [enable()] that follows puts the same compute back under the same force
    name and the force contributes again.  No compute has been touched in
    between, and if the compute was registered before, the system and the
    force are back to what they were. *)
Theorem disable_enable_round_trip
    (w : world) (self : loc) (o : force_obj) (c : cloc) :
  objs w !! self = Some o ->
  cpp_force o = Some c ->
  enabled o = true ->
  let r1 := disable self false w in
  let r2 := enable self r1.1 in
  (r1.2 = Return tt
   /\ system r1.1 = delete (force_name o) (system w)
   /\ contributes_to_net_force r1.1 self = false
   /\ computes r1.1 = computes w)
  /\ (r2.2 = Return tt
      /\ system r2.1 = <[force_name o := c]> (system w)
      /\ contributes_to_net_force r2.1 self = true
      /\ objs r2.1 = <[self := set_log true o]> (objs w)
      /\ computes r2.1 = computes w)
  /\ (system w !! force_name o = Some c -> system r2.1 = system w)
  /\ (log o = true -> objs r2.1 = objs w).
Proof.
  intros Hself Hc He r1 r2.
  pose proof (disable_enabled w self o c Hself Hc He false) as Hd.
  set (o1 := set_log false (set_enabled false o)).
  assert (Hw1 : r1.1 = with_system (delete (force_name o) (system w))
                         (with_objs (<[self := o1]> (objs w))
                            (with_msgs (msgs w ++ [status_line]) w))).
  { subst r1. rewrite Hd. reflexivity. }
  assert (Hself1 : objs r1.1 !! self = Some o1).
  { rewrite Hw1. destruct w; cbn. apply lookup_insert_eq. }
  pose proof (enable_disabled r1.1 self o1 c Hself1 Hc eq_refl) as Hen.
  assert (Ho : set_log true (set_enabled true o1) = set_log true o).
  { unfold set_log, set_enabled, o1; cbn. rewrite He. reflexivity. }
  assert (Hsys : system r2.1 = <[force_name o := c]> (system w)).
  { subst r2. rewrite Hen, Hw1. destruct w; cbn. apply insert_delete_eq. }
  assert (Hobjs : objs r2.1 = <[self := set_log true o]> (objs w)).
  { subst r2. rewrite Hen, Ho, Hw1. destruct w; cbn. apply insert_insert_eq. }
  split; [|split; [|split]].
  - repeat split.
    + subst r1. rewrite Hd. reflexivity.
    + rewrite Hw1. destruct w; reflexivity.
    + unfold contributes_to_net_force. rewrite Hself1. reflexivity.
    + rewrite Hw1. destruct w; reflexivity.
  - repeat split; try assumption.
    + subst r2. rewrite Hen. reflexivity.
    + unfold contributes_to_net_force. rewrite Hobjs, lookup_insert_eq.
      exact He.
    + subst r2. rewrite Hen, Hw1. destruct w; reflexivity.
  - intros Hreg. rewrite Hsys. apply insert_id, Hreg.
  - intros Hl. rewrite Hobjs. apply insert_id. rewrite Hself. f_equal.
    destruct o; cbn in *. subst. reflexivity.
Qed.

Lemma disable_enable_round_trip_witness :
  let r1 := disable 0 false session_with_constant in
  let r2 := enable 0 r1.1 in
  system r1.1 !! "force0" = None
  /\ contributes_to_net_force r1.1 0 = false
  /\ system r2.1 = system session_with_constant
  /\ objs r2.1 = objs session_with_constant
  /\ computes r2.1 = computes session_with_constant.
Proof.
  destruct (disable_enable_round_trip session_with_constant 0 sample_constant 0)
    as ((_ & Hs1 & Hn1 & _) & (_ & _ & _ & _ & Hc2) & Hs2 & Ho2);
    [reflexivity | reflexivity | reflexivity |].
  cbv zeta. rewrite Hs1, Hn1, Hc2, (Hs2 eq_refl), (Ho2 eq_refl).
  repeat split.
Defined.

(** C3: on an initialized, enabled force, [disable(log=True)] clears the
    enabled flag, so the force no longer contributes to the dynamics, and
    keeps the log flag; the system and the computes are left as they were,
    so a registered compute stays registered under the force's name. *)
Theorem disable_keeps_logging
    (w : world) (self : loc) (o : force_obj) (c : cloc) :
  objs w !! self = Some o ->
  cpp_force o = Some c ->
  enabled o = true ->
  let r := disable self true w in
  r.2 = Return tt
  /\ objs r.1 !! self = Some (set_log true (set_enabled false o))
  /\ contributes_to_net_force r.1 self = false
  /\ system r.1 = system w
  /\ computes r.1 = computes w
  /\ (registered w self -> registered r.1 self).
Proof.
  intros Hself Hc He r.
  pose proof (disable_enabled w self o c Hself Hc He true) as Hd.
  assert (Hw1 : r.1 = with_objs (<[self := set_log true (set_enabled false o)]> (objs w))
                        (with_msgs (msgs w ++ [status_line]) w)).
  { subst r. rewrite Hd. destruct w; reflexivity. }
  assert (Hself1 : objs r.1 !! self = Some (set_log true (set_enabled false o))).
  { rewrite Hw1. destruct w; cbn. apply lookup_insert_eq. }
  assert (Hsys : system r.1 = system w).
  { rewrite Hw1. destruct w; reflexivity. }
  repeat split; try assumption.
  - subst r. rewrite Hd. reflexivity.
  - unfold contributes_to_net_force. rewrite Hself1. reflexivity.
  - rewrite Hw1. destruct w; reflexivity.
  - intros (o' & c' & Ho' & Hc' & Hreg).
    rewrite Hself in Ho'. injection Ho' as <-.
    exists (set_log true (set_enabled false o)), c'.
    rewrite Hsys. repeat split; assumption.
Qed.

Lemma disable_keeps_logging_witness :
  let r := disable 0 true session_with_constant in
  r.2 = Return tt
  /\ contributes_to_net_force r.1 0 = false
  /\ system r.1 !! "force0" = Some 0
  /\ computes r.1 !! 0 = Some sample_compute.
Proof.
  destruct (disable_keeps_logging session_with_constant 0 sample_constant 0)
    as (Hr & _ & Hn & Hs & Hc & _); [reflexivity | reflexivity | reflexivity |].
  cbv zeta. rewrite Hr, Hn, Hs, Hc. repeat split.
Defined.

(** ** constant.set_force *)

(** C7: on an initialized constant force, [set_force(fx, fy, fz, group)]
    returns normally; the compute of the force has received
    [setGroupForce(group.cpp_group, fx, fy, fz)] when a group was given and
    [setForce(fx, fy, fz)] otherwise, and the attributes [fx], [fy], [fz] of
    the force hold the new components.  Nothing else of the force, and
    nothing of the system, has changed. *)
Theorem set_force_updates
    (w : world) (self : loc) (o : force_obj) (c : cloc) (cm : compute)
    (fx fy fz : Scalar) (grp : option group) :
  objs w !! self = Some o ->
  cpp_force o = Some c ->
  computes w !! c = Some cm ->
  let r := set_force self fx fy fz grp w in
  let call := match grp with
              | Some g => setGroupForce (cpp_group g) fx fy fz
              | None => setForce fx fy fz
              end in
  r.2 = Return tt
  /\ computes r.1 = <[c := Compute (built cm) (calls cm ++ [call])]> (computes w)
  /\ (exists o',
        objs r.1 !! self = Some o'
        /\ attrs o' !! "fx" = Some (VScalar fx)
        /\ attrs o' !! "fy" = Some (VScalar fy)
        /\ attrs o' !! "fz" = Some (VScalar fz)
        /\ cpp_force o' = Some c
        /\ force_name o' = force_name o
        /\ enabled o' = enabled o
        /\ log o' = log o)
  /\ system r.1 = system w.
Proof.
  intros Hself Hc Hcm r call. subst r.
  rewrite (set_force_eq w self o Hself), Hc. cbv zeta. fold call.
  split; [reflexivity|]. split; [|split].
  - destruct w; cbn in *. apply map_eq. intros i.
    rewrite lookup_alter, lookup_insert.
    destruct (decide (c = i)) as [<-|]; [rewrite Hcm|]; reflexivity.
  - eexists. split; [destruct w; cbn; apply lookup_insert_eq|].
    cbn. repeat split; try assumption.
    + rewrite lookup_insert_ne by discriminate.
      rewrite lookup_insert_ne by discriminate. apply lookup_insert_eq.
    + rewrite lookup_insert_ne by discriminate. apply lookup_insert_eq.
    + apply lookup_insert_eq.
  - destruct w; reflexivity.
Qed.

Lemma set_force_updates_witness :
  let r := set_force 0 (2 # 10)%Q (1 # 10)%Q (- (1 # 2))%Q None session_with_constant in
  r.2 = Return tt
  /\ computes r.1 !! 0 =
     Some (Compute (built sample_compute)
                   [setForce (2 # 10)%Q (1 # 10)%Q (- (1 # 2))%Q])
  /\ system r.1 = system session_with_constant.
Proof.
  destruct (set_force_updates session_with_constant 0 sample_constant 0
              sample_compute (2 # 10)%Q (1 # 10)%Q (- (1 # 2))%Q None)
    as (Hr & Hc & _ & Hs); [reflexivity | reflexivity | reflexivity |].
  cbv zeta. rewrite Hr, Hc, Hs, lookup_insert_eq. repeat split.
Defined.

(** ** Construction *)

Ltac py_unfold :=
  unfold instantiate, _force__init__, bind, gets, modify, ret, raise,
    getattr, setattr, print_status_line, msg_error, msg_warning,
    addCompute, removeCompute, new_compute.

Lemma new_loc_fresh (w : world) : objs w !! new_loc w = None.
Proof. unfold new_loc, unused. apply not_elem_of_dom. apply is_fresh. Qed.

Lemma check_f_lst_eq (l : list pyval) (w : world) :
  check_f_lst l w =
  if existsb malformed l then
    (w, Raise (RuntimeError
                 "Active force passed in should be a list of 3-tuples (fx, fy, fz)"))
  else (w, Return tt).
Proof.
  induction l as [|e l IH]; cbn; [reflexivity|].
  destruct (malformed e); cbn; [reflexivity | exact IH].
Qed.

Lemma malformed_iff (e : pyval) : malformed e = false <-> is_3tuple e.
Proof.
  unfold is_3tuple. split.
  - destruct e as [| | |l|l]; cbn; try discriminate.
    destruct l as [|a [|b [|c [|d l]]]]; cbn; try discriminate.
    intros _. eauto.
  - intros (a & b & c & ->). reflexivity.
Qed.

Lemma negative_iff (x : Scalar) : negative x = true <-> (x < 0)%Q.
Proof.
  unfold negative, Qlt. cbn. rewrite Z.ltb_lt. lia.
Qed.

(** C1: with a negative [rotation_diff] the construction of an active force
    raises, whatever the other arguments are, and no compute has been
    created or registered with the system.  The error comes after the base
    class has done its part: in an initialized session the new force, with
    its name, both flags set and no [cpp_force], is already the last entry
    of [hoomd.context.current.forces] and the id counter has advanced; in
    a session that is not initialized nothing but messages has changed.
    When the checks of the scripting layer pass, the exception is the
    engine's configuration error. *)
Theorem active_negative_rotation_diff_fails
    (w : world) (seed : Z) (f_lst : option (list pyval)) (grp : group)
    (orientation_link : bool) (rotation_diff : Scalar)
    (constraint : option constraint_obj) :
  (rotation_diff < 0)%Q ->
  let r := active seed f_lst grp orientation_link rotation_diff constraint w in
  raised r
  /\ system r.1 = system w
  /\ computes r.1 = computes w
  /\ (forall o, objs r.1 !! new_loc w = Some o -> cpp_force o = None)
  /\ (initialized w = true ->
      forces r.1 = (forces w ++ [new_loc w])%list
      /\ cur_id r.1 = cur_id w + 1
      /\ objs r.1 = <[new_loc w :=
                        ForceObj "" None (format_force_name (cur_id w)) true true ∅]>
                      (objs w))
  /\ (initialized w = false ->
      forces r.1 = forces w /\ cur_id r.1 = cur_id w /\ objs r.1 = objs w)
  /\ (initialized w = true ->
      existsb malformed (default [] f_lst) = false ->
      (forall c, constraint = Some c ->
                 class_name_is c "constraint_ellipsoid" = true) ->
      r.2 = Raise (InvalidConfiguration "rotational diffusion constant is negative")).
Proof.
  intros Hneg%negative_iff r. subst r.
  pose proof (new_loc_fresh w) as Hfresh.
  unfold active, active__init__, ActiveForceCompute__new, raised.
  destruct w as [ini cu id fs ga sy ob co ms]. py_unfold. cbn in *.
  destruct ini; cbn.
  2:{ repeat split; eauto; try discriminate.
      intros o Ho. rewrite Hfresh in Ho. discriminate. }
  assert (Hnew : forall o',
    <[unused ob := ForceObj "" None (format_force_name id) true true ∅]> ob
      !! unused ob = Some o' ->
    cpp_force o' = None).
  { intros o'. rewrite lookup_insert_eq. intros [= <-]. reflexivity. }
  assert (Hchk : forall w',
    match f_lst with Some l => check_f_lst l | None => fun w => (w, Return tt) end w'
    = (w', if existsb malformed (default [] f_lst) then
             Raise (RuntimeError
               "Active force passed in should be a list of 3-tuples (fx, fy, fz)")
           else Return tt)).
  { intros w'. destruct f_lst as [l|]; [|reflexivity].
    rewrite check_f_lst_eq. cbn. destruct (existsb malformed l); reflexivity. }
  rewrite Hchk.
  destruct (existsb malformed (default [] f_lst)) eqn:Hl; cbn.
  { repeat split; eauto; discriminate. }
  destruct constraint as [c|]; cbn.
  - destruct (class_name_is c "constraint_ellipsoid") eqn:Hcn; cbn.
    + rewrite Hneg; cbn. repeat split; eauto; discriminate.
    + repeat split; eauto; try discriminate.
      intros _ _ Hc. rewrite (Hc c eq_refl) in Hcn. discriminate.
  - rewrite Hneg; cbn. repeat split; eauto; discriminate.
Qed.

Lemma active_success
    (w : world) (seed : Z) (f_lst : option (list pyval)) (grp : group)
    (orientation_link : bool) (rotation_diff : Scalar)
    (constraint : option constraint_obj) :
  initialized w = true ->
  existsb malformed (default [] f_lst) = false ->
  (forall c, constraint = Some c -> class_name_is c "constraint_ellipsoid" = true) ->
  negative rotation_diff = false ->
  cpp_group grp <> [] ->
  existsb zero_magnitude (default [] f_lst) = false ->
  active seed f_lst grp orientation_link rotation_diff constraint w =
  let self := new_loc w in
  let c := new_cloc w in
  let nm := format_force_name (cur_id w) in
  let '(P, rx, ry, rz) := surface_of constraint in
  (World true (cuda_enabled w) (cur_id w + 1) (forces w ++ [self]) (group_all w)
     (<[nm := c]> (system w))
     (<[self := ForceObj "" (Some c) nm true true
                  (active_attrs seed grp orientation_link rotation_diff constraint)]>
        (objs w))
     (<[c := Compute
               ((if cuda_enabled w then ActiveForceComputeGPU else ActiveForceCompute)
                  (cpp_group grp) seed f_lst orientation_link rotation_diff
                  P rx ry rz) []]> (computes w))
     (msgs w ++ [status_line]),
   Return self).
Proof.
  intros Hini Hl Hcn Hneg Hg Hz.
  assert (Hlen : Nat.eqb (length (cpp_group grp)) 0 = false).
  { destruct (cpp_group grp); [congruence | reflexivity]. }
  unfold active, active__init__, ActiveForceCompute__new, active_attrs.
  destruct w as [ini cu id fs ga sy ob co ms]. py_unfold. cbn in *. subst ini.
  cbn.
  assert (Hchk : forall w',
    match f_lst with Some l => check_f_lst l | None => fun w => (w, Return tt) end w'
    = (w', Return tt)).
  { intros w'. destruct f_lst as [l|]; [|reflexivity].
    rewrite check_f_lst_eq. cbn in Hl. rewrite Hl. reflexivity. }
  rewrite Hchk.
  destruct constraint as [cn|]; cbn.
  - rewrite (Hcn cn eq_refl). cbn. rewrite Hneg, Hlen, Hz. cbn.
    py_lookups. unfold set_attr, set_cpp_force; cbn.
    rewrite !insert_insert_eq. reflexivity.
  - rewrite Hneg, Hlen, Hz. cbn.
    py_lookups. unfold set_attr, set_cpp_force; cbn.
    rewrite !insert_insert_eq. reflexivity.
Qed.

Lemma active_negative_rotation_diff_fails_witness :
  let r := active 7 (Some [PyTuple [PyNum 1%Q; PyNum 2%Q; PyNum 3%Q]])
             (Group "all" [0; 1; 2]) false (- (100 # 1))%Q None fresh_session in
  r.2 = Raise (InvalidConfiguration "rotational diffusion constant is negative")
  /\ system r.1 = ∅ /\ computes r.1 = ∅
  /\ forces r.1 = [0] /\ cur_id r.1 = 1.
Proof.
  destruct (active_negative_rotation_diff_fails fresh_session 7
              (Some [PyTuple [PyNum 1%Q; PyNum 2%Q; PyNum 3%Q]])
              (Group "all" [0; 1; 2]) false (- (100 # 1))%Q None)
    as (_ & Hs & Hc & _ & Hf & _ & H); [reflexivity |].
  destruct (Hf eq_refl) as (Hfs & Hid & _).
  cbv zeta. rewrite Hs, Hc, Hfs, Hid.
  split; [apply H; [reflexivity | reflexivity | discriminate] |].
  repeat split.
Defined.

(** The force is not untouched when the error comes: at this input the
    failed call has listed it, has taken id 0 for it and has set both its
    flags. *)
Lemma active_negative_rotation_diff_sets_up_force :
  let w := fresh_session in
  let r := active 7 (Some [PyTuple [PyNum 1%Q; PyNum 2%Q; PyNum 3%Q]])
             (Group "all" [0; 1; 2]) false (- (100 # 1))%Q None w in
  raised r
  /\ forces w = [] /\ forces r.1 = [0]
  /\ cur_id w = 0 /\ cur_id r.1 = 1
  /\ objs w !! 0 = None
  /\ enabled <$> objs r.1 !! 0 = Some true
  /\ log <$> objs r.1 !! 0 = Some true
  /\ force_name <$> objs r.1 !! 0 = Some "force0"
  /\ ~ (forces r.1 = forces w /\ cur_id r.1 = cur_id w /\ objs r.1 = objs w).
Proof.
  cbv zeta. split; [eexists; reflexivity|].
  repeat split; try reflexivity.
  intros (Hf & _). discriminate Hf.
Qed.

(** C5: a constraint whose class is not [constraint_ellipsoid] makes the
    construction of an active force raise, whatever the other arguments
    are, before any compute is created or registered; when the earlier
    checks pass the exception is the one about the constraint.  Without a
    constraint, and with arguments the engine accepts, the construction
    returns the new force and its registered compute was built with
    P = (0, 0, 0) and rx = ry = rz = 0. *)
Theorem active_constraint_check
    (w : world) (seed : Z) (f_lst : option (list pyval)) (grp : group)
    (orientation_link : bool) (rotation_diff : Scalar) :
  (forall cn : constraint_obj,
     class_name cn <> "constraint_ellipsoid" ->
     let r := active seed f_lst grp orientation_link rotation_diff (Some cn) w in
     raised r
     /\ system r.1 = system w
     /\ computes r.1 = computes w
     /\ (initialized w = true ->
         existsb malformed (default [] f_lst) = false ->
         r.2 = Raise (RuntimeError
           "Active force constraint is not accepted (currently only accepts ellipsoids)")))
  /\ (initialized w = true ->
      existsb malformed (default [] f_lst) = false ->
      (0 <= rotation_diff)%Q ->
      cpp_group grp <> [] ->
      existsb zero_magnitude (default [] f_lst) = false ->
      let r := active seed f_lst grp orientation_link rotation_diff None w in
      exists (self : loc) (o : force_obj) (c : cloc),
        r.2 = Return self
        /\ objs r.1 !! self = Some o
        /\ cpp_force o = Some c
        /\ system r.1 !! force_name o = Some c
        /\ computes r.1 !! c =
           Some (Compute
                   ((if cuda_enabled w then ActiveForceComputeGPU
                     else ActiveForceCompute)
                      (cpp_group grp) seed f_lst orientation_link rotation_diff
                      (make_scalar3 0%Q 0%Q 0%Q) 0%Q 0%Q 0%Q) [])).
Proof.
  split.
  - intros cn Hcn r. subst r.
    apply String.eqb_neq in Hcn.
    assert (Hid : class_name_is cn "constraint_ellipsoid" = false).
    { unfold class_name_is. rewrite Hcn. apply andb_false_r. }
    clear Hcn. rename Hid into Hcn.
    unfold active, active__init__, raised.
    destruct w as [ini cu id fs ga sy ob co ms]. py_unfold. cbn.
    destruct ini; cbn.
    2:{ repeat split; eauto. discriminate. }
    destruct f_lst as [l|]; cbn.
    + rewrite check_f_lst_eq.
      destruct (existsb malformed l) eqn:Hl; cbn.
      { repeat split; eauto. discriminate. }
      rewrite Hcn; cbn. repeat split; eauto.
    + rewrite Hcn; cbn. repeat split; eauto.
  - intros Hini Hl Hrd Hg Hz r. subst r.
    assert (Hneg : negative rotation_diff = false).
    { destruct (negative rotation_diff) eqn:Hn; [|reflexivity].
      apply negative_iff in Hn. exfalso. revert Hn. apply Qle_not_lt, Hrd. }
    rewrite (active_success w seed f_lst grp orientation_link rotation_diff None
               Hini Hl ltac:(discriminate) Hneg Hg Hz).
    cbn. eexists _, _, _. split; [reflexivity|].
    rewrite !lookup_insert_eq. repeat split.
    cbn. apply lookup_insert_eq.
Qed.

Lemma active_constraint_check_witness :
  raised (active 7 (Some [PyTuple [PyNum 1%Q; PyNum 2%Q; PyNum 3%Q]])
            (Group "all" [0; 1; 2]) false 100%Q
            (Some (Constraint "constraint_sphere" (make_scalar3 0%Q 0%Q 0%Q) 3%Q 3%Q 3%Q))
            fresh_session)
  /\ exists self o c,
       let r := active 7 (Some [PyTuple [PyNum 1%Q; PyNum 2%Q; PyNum 3%Q]])
                  (Group "all" [0; 1; 2]) false 100%Q None fresh_session in
       r.2 = Return self
       /\ objs r.1 !! self = Some o
       /\ cpp_force o = Some c
       /\ system r.1 !! force_name o = Some c
       /\ computes r.1 !! c =
          Some (Compute
                  (ActiveForceCompute [0; 1; 2] 7
                     (Some [PyTuple [PyNum 1%Q; PyNum 2%Q; PyNum 3%Q]])
                     false 100%Q (make_scalar3 0%Q 0%Q 0%Q) 0%Q 0%Q 0%Q) []).
Proof.
  destruct (active_constraint_check fresh_session 7
              (Some [PyTuple [PyNum 1%Q; PyNum 2%Q; PyNum 3%Q]])
              (Group "all" [0; 1; 2]) false 100%Q) as [Hbad Hgood].
  split.
  - apply Hbad. discriminate.
  - apply Hgood; [reflexivity | reflexivity | discriminate | discriminate | reflexivity].
Defined.

(** C6: in an initialized session, the construction of an active force
    with a force-vector list raises the error about the list exactly when
    some element of the list is not a tuple of length 3; a list of 3-tuples
    gets through the input check unharmed. *)
Theorem active_f_lst_check
    (w : world) (seed : Z) (l : list pyval) (grp : group)
    (orientation_link : bool) (rotation_diff : Scalar)
    (constraint : option constraint_obj) :
  initialized w = true ->
  let r := active seed (Some l) grp orientation_link rotation_diff constraint w in
  (r.2 = Raise (RuntimeError
                  "Active force passed in should be a list of 3-tuples (fx, fy, fz)")
   <-> exists element, element ∈ l /\ ~ is_3tuple element)
  /\ ((forall element, element ∈ l -> is_3tuple element) ->
      forall w', check_f_lst l w' = (w', Return tt)).
Proof.
  intros Hini r.
  assert (Hex : existsb malformed l = true
                <-> exists element, element ∈ l /\ ~ is_3tuple element).
  { rewrite existsb_exists. split; intros (e & He & Hm); exists e.
    - split; [apply list_elem_of_In, He|].
      intros Ht%malformed_iff. congruence.
    - split; [apply list_elem_of_In, He|].
      destruct (malformed e) eqn:Hme; [reflexivity|].
      exfalso. apply Hm, malformed_iff, Hme. }
  split.
  - rewrite <- Hex. subst r.
    unfold active, active__init__, ActiveForceCompute__new.
    destruct w as [ini cu id fs ga sy ob co ms]. py_unfold. cbn in *. subst ini.
    cbn. rewrite check_f_lst_eq.
    destruct (existsb malformed l) eqn:Hl; cbn; [tauto|].
    split; [|discriminate]. intros H. exfalso. revert H.
    destruct constraint as [cn|]; cbn;
      [destruct (class_name_is cn "constraint_ellipsoid"); cbn|];
      try discriminate;
      (destruct (negative rotation_diff); cbn; [discriminate|]);
      (destruct (Nat.eqb (length (cpp_group grp)) 0); cbn; [discriminate|]);
      (destruct (existsb zero_magnitude l); cbn; [discriminate|]);
      py_lookups; discriminate.
  - intros Hall w'. rewrite check_f_lst_eq.
    destruct (existsb malformed l) eqn:Hl; [|reflexivity].
    destruct (proj1 Hex eq_refl) as (e & He & Hne).
    destruct Hne. apply Hall, He.
Qed.

Lemma active_f_lst_check_witness :
  (active 13 (Some [PyTuple [PyNum 3%Q; PyNum 0%Q; PyNum 0%Q]; PyList [PyNum 3%Q]])
          (Group "all" [0; 1; 2]) true 0%Q None fresh_session).2
  = Raise (RuntimeError
             "Active force passed in should be a list of 3-tuples (fx, fy, fz)").
Proof.
  destruct (active_f_lst_check fresh_session 13
              [PyTuple [PyNum 3%Q; PyNum 0%Q; PyNum 0%Q]; PyList [PyNum 3%Q]]
              (Group "all" [0; 1; 2]) true 0%Q None) as [[_ H] _]; [reflexivity |].
  apply H. exists (PyList [PyNum 3%Q]). split.
  - apply list_elem_of_In. right. left. reflexivity.
  - intros (a & b & c & Habs). discriminate.
Defined.

(** ** The invariant on [enabled] and [log] *)

Lemma heap_ok_same (w w' : world) :
  objs w' = objs w -> heap_ok w -> heap_ok w'.
Proof. unfold heap_ok. intros ->. auto. Qed.

Lemma heap_ok_insert (w w' : world) (self : loc) (o : force_obj) :
  objs w' = <[self := o]> (objs w) -> flags_ok o -> heap_ok w -> heap_ok w'.
Proof.
  unfold heap_ok. intros -> Ho Hw l o'. rewrite lookup_insert.
  case_decide; [intros [= <-]; exact Ho | apply Hw].
Qed.

Lemma preserves_ret {A} (a : A) : preserves (ret a).
Proof. intros w H. exact H. Qed.

Lemma preserves_raise {A} (e : exn) : preserves (@raise A e).
Proof. intros w H. exact H. Qed.

Lemma preserves_gets {A} (f : world -> A) : preserves (gets f).
Proof. intros w H. exact H. Qed.

Lemma preserves_bind {A B} (m : Py A) (k : A -> Py B) :
  preserves m -> (forall a, preserves (k a)) -> preserves (bind m k).
Proof.
  intros Hm Hk w H. unfold bind. specialize (Hm w H).
  destruct (m w) as [w' [a|e]]; cbn in *; [apply Hk, Hm | exact Hm].
Qed.

Lemma preserves_modify (f : world -> world) :
  (forall w, heap_ok w -> heap_ok (f w)) -> preserves (modify f).
Proof. intros Hf w H. apply Hf, H. Qed.

Lemma preserves_getattr {A} (self : loc) (f : force_obj -> A) :
  preserves (getattr self f).
Proof. intros w H. unfold getattr. destruct (objs w !! self); exact H. Qed.

Lemma preserves_setattr (self : loc) (f : force_obj -> force_obj) :
  (forall o, flags_ok o -> flags_ok (f o)) -> preserves (setattr self f).
Proof.
  intros Hf w H. unfold setattr. destruct (objs w !! self) as [o|] eqn:Ho; [|exact H].
  cbn. eapply heap_ok_insert; [reflexivity | apply Hf, (H _ _ Ho) | exact H].
Qed.

Lemma flags_ok_set_attr (k : string) (v : value) (o : force_obj) :
  flags_ok o -> flags_ok (set_attr k v o).
Proof. exact (fun H => H). Qed.

Lemma flags_ok_set_cpp_force (c : option cloc) (o : force_obj) :
  flags_ok o -> flags_ok (set_cpp_force c o).
Proof. exact (fun H => H). Qed.

Create HintDb py_inv.
#[local] Hint Resolve preserves_ret preserves_raise preserves_gets
  preserves_getattr flags_ok_set_attr flags_ok_set_cpp_force : py_inv.

(** Walk through the statements of a method, one rule per statement. *)
Ltac walk :=
  repeat first
    [ solve [auto with py_inv]
    | apply preserves_bind; [|intros ?]
    | apply preserves_setattr; intros ?; solve [auto with py_inv]
    | apply preserves_modify; intros ? ?; eapply heap_ok_same; [reflexivity|eassumption]
    | match goal with
      | |- preserves (match ?x with _ => _ end) => destruct x
      end ].

Lemma preserves_force_init (self : loc) (nm : option string) :
  preserves (_force__init__ self nm).
Proof.
  unfold _force__init__, msg_error. walk.
  apply preserves_modify. intros w H.
  eapply heap_ok_insert; [reflexivity | intros _; reflexivity | exact H].
Qed.

Lemma preserves_check_initialization (self : loc) :
  preserves (check_initialization self).
Proof. unfold check_initialization, msg_error. walk. Qed.

Lemma preserves_check_f_lst (l : list pyval) : preserves (check_f_lst l).
Proof. intros w H. rewrite check_f_lst_eq. destruct (existsb _ _); exact H. Qed.

#[local] Hint Resolve preserves_force_init preserves_check_initialization
  preserves_check_f_lst : py_inv.

Lemma preserves_force (nm : option string) : preserves (_force nm).
Proof. unfold _force, instantiate. walk. Qed.

Lemma preserves_constant (fx fy fz : Scalar) (grp : option group) :
  preserves (constant fx fy fz grp).
Proof.
  unfold constant, instantiate, constant__init__, ConstForceCompute__new,
    new_compute, print_status_line, addCompute.
  walk; intros w H; exact H.
Qed.

Lemma preserves_active (seed : Z) (f_lst : option (list pyval)) (grp : group)
    (orientation_link : bool) (rotation_diff : Scalar)
    (constraint : option constraint_obj) :
  preserves (active seed f_lst grp orientation_link rotation_diff constraint).
Proof.
  unfold active, instantiate, active__init__, ActiveForceCompute__new,
    new_compute, print_status_line, addCompute.
  walk; intros w H; exact H.
Qed.

Lemma preserves_const_external_field_dipole (field_x field_y field_z p : Scalar) :
  preserves (const_external_field_dipole field_x field_y field_z p).
Proof.
  unfold const_external_field_dipole, instantiate,
    const_external_field_dipole__init__, ConstExternalFieldDipoleForceCompute__new,
    new_compute, print_status_line, addCompute.
  walk; intros w H; exact H.
Qed.

Lemma preserves_benchmark (self : loc) (n : Scalar) : preserves (benchmark self n).
Proof. unfold benchmark, native_call. walk. Qed.

Lemma preserves_set_force (self : loc) (fx fy fz : Scalar) (grp : option group) :
  preserves (set_force self fx fy fz grp).
Proof. unfold set_force, native_call. walk. Qed.

(** [enable] sets the two flags one after the other, so the invariant is
    broken between its last two statements; it is the whole call that
    preserves it. *)
Lemma preserves_enable (self : loc) : preserves (enable self).
Proof.
  intros w H. destruct (objs w !! self) as [o|] eqn:Ho.
  - rewrite (enable_eq w self o Ho).
    destruct (cpp_force o), (enabled o); cbn;
      try (eapply heap_ok_same; [reflexivity | exact H]).
    eapply heap_ok_insert; [reflexivity | intros _; reflexivity | exact H].
  - unfold enable, check_initialization, print_status_line.
    py_unfold. py_lookups. exact H.
Qed.

Lemma preserves_disable (self : loc) (log_ : bool) : preserves (disable self log_).
Proof.
  intros w H. destruct (objs w !! self) as [o|] eqn:Ho.
  - rewrite (disable_eq w self o Ho).
    destruct (cpp_force o), (enabled o); cbn;
      try (eapply heap_ok_same; [reflexivity | exact H]).
    eapply heap_ok_insert; [reflexivity | discriminate | exact H].
  - unfold disable, check_initialization, print_status_line.
    py_unfold. py_lookups. exact H.
Qed.

Lemma exec_heap_ok (c : command) (w : world) : heap_ok w -> heap_ok (exec c w).
Proof.
  destruct c; cbn.
  - apply preserves_force.
  - apply preserves_constant.
  - apply preserves_active.
  - apply preserves_const_external_field_dipole.
  - apply preserves_disable.
  - apply preserves_enable.
  - apply preserves_benchmark.
  - apply preserves_set_force.
Qed.

Lemma run_heap_ok (script : list command) (w : world) :
  heap_ok w -> heap_ok (run script w).
Proof.
  unfold run. revert w.
  induction script as [|c script IH]; intros w H; cbn; [exact H|].
  apply IH, exec_heap_ok, H.
Qed.

(** C9: start a session without force objects and run any script that
    constructs forces and calls [enable], [disable(log)], [benchmark] and
    [set_force] on them, raised exceptions included: every force object
    that is enabled afterwards has its log flag set. *)
Theorem enabled_implies_log (w : world) (script : list command) (l : loc) :
  objs w = ∅ ->
  enabled <$> objs (run script w) !! l = Some true ->
  log <$> objs (run script w) !! l = Some true.
Proof.
  intros Hempty Hen.
  assert (H0 : heap_ok w).
  { intros l' o'. rewrite Hempty, lookup_empty. discriminate. }
  pose proof (run_heap_ok script w H0) as Hok.
  destruct (objs (run script w) !! l) as [o|] eqn:Ho; [|discriminate].
  cbn in *. injection Hen as Hen. f_equal. exact (Hok l o Ho Hen).
Qed.

Lemma enabled_implies_log_witness :
  log <$> objs (run [new_active 13 (Some [PyNum 3%Q]) (Group "all" [0; 1; 2])
                       true 0%Q None;
                     new_constant (4 # 10)%Q 1%Q (1 # 2)%Q None;
                     call_disable 1 true;
                     call_disable 1 false;
                     call_enable 1;
                     call_enable 0]
                    fresh_session) !! 1 = Some true.
Proof.
  apply enabled_implies_log; [reflexivity | vm_compute; reflexivity].
Defined.

(** * Further properties *)

(** ** What the class calls do to the session *)

Lemma force_constructs (nm : option string) (w : world) :
  constructs false w (_force nm w).
Proof.
  unfold constructs, _force, raised.
  destruct w as [ini cu id fs ga sy ob co ms]. py_unfold. cbn.
  destruct ini; cbn.
  - right. eexists. repeat split; try reflexivity. left. repeat split.
  - left. repeat split; eauto.
Qed.

Lemma constant_constructs (fx fy fz : Scalar) (grp : option group) (w : world) :
  constructs true w (constant fx fy fz grp w).
Proof.
  unfold constructs, constant, constant__init__, ConstForceCompute__new, raised.
  destruct w as [ini cu id fs ga sy ob co ms]. py_unfold. cbn.
  destruct ini; cbn.
  - right. destruct grp as [g|]; cbn; py_lookups;
      rewrite !insert_insert_eq;
      (eexists; repeat split; try reflexivity; right; repeat split; eauto).
  - left. repeat split; eauto.
Qed.

Lemma const_external_field_dipole_constructs
    (field_x field_y field_z p : Scalar) (w : world) :
  constructs true w (const_external_field_dipole field_x field_y field_z p w).
Proof.
  unfold constructs, const_external_field_dipole,
    const_external_field_dipole__init__,
    ConstExternalFieldDipoleForceCompute__new, raised.
  destruct w as [ini cu id fs ga sy ob co ms]. py_unfold. cbn.
  destruct ini; cbn.
  - right. py_lookups. rewrite !insert_insert_eq.
    eexists; repeat split; try reflexivity; right; repeat split; eauto.
  - left. repeat split; eauto.
Qed.

Lemma active_constructs
    (seed : Z) (f_lst : option (list pyval)) (grp : group)
    (orientation_link : bool) (rotation_diff : Scalar)
    (constraint : option constraint_obj) (w : world) :
  constructs true w
    (active seed f_lst grp orientation_link rotation_diff constraint w).
Proof.
  unfold constructs, active, active__init__, ActiveForceCompute__new, raised.
  destruct w as [ini cu id fs ga sy ob co ms]. py_unfold. cbn.
  destruct ini; cbn; [|left; repeat split; eauto; eauto].
  right.
  assert (Hchk : forall w',
    match f_lst with Some l => check_f_lst l | None => fun w => (w, Return tt) end w'
    = (w', if existsb malformed (default [] f_lst) then
             Raise (RuntimeError
               "Active force passed in should be a list of 3-tuples (fx, fy, fz)")
           else Return tt)).
  { intros w'. destruct f_lst as [l|]; [|reflexivity].
    rewrite check_f_lst_eq. cbn. destruct (existsb malformed l); reflexivity. }
  rewrite Hchk.
  destruct (existsb malformed (default [] f_lst)); cbn.
  { eexists; repeat split; try reflexivity; left; repeat split; eauto. }
  destruct constraint as [cn|]; cbn;
    [destruct (class_name_is cn "constraint_ellipsoid"); cbn|];
    try (eexists; repeat split; try reflexivity; left; repeat split; eauto; fail);
    (destruct (negative rotation_diff); cbn;
       [eexists; repeat split; try reflexivity; left; repeat split; eauto|]);
    (destruct (Nat.eqb (length (cpp_group grp)) 0); cbn;
       [eexists; repeat split; try reflexivity; left; repeat split; eauto|]);
    (destruct (existsb zero_magnitude (default [] f_lst)); cbn;
       [eexists; repeat split; try reflexivity; left; repeat split; eauto|]);
    py_lookups; rewrite !insert_insert_eq;
    (eexists; repeat split; try reflexivity; right; repeat split; eauto).
Qed.

(** ** Sessions *)

Lemma format_force_name_inj (a b : nat) :
  format_force_name a = format_force_name b -> a = b.
Proof.
  intros H. cbv [format_force_name String.append] in H. injection H as H.
  apply Unsigned.to_uint_inj.
  assert (E : Some (Nat.to_uint a) = Some (Nat.to_uint b)).
  { rewrite <- !NilEmpty.usu, H. reflexivity. }
  injection E as E. exact E.
Qed.

Lemma consistent_index (n0 : nat) (w : world) (l : loc) (o : force_obj) :
  consistent n0 w -> objs w !! l = Some o ->
  exists i, forces w !! i = Some l /\ force_name o = format_force_name (n0 + i).
Proof.
  intros C Ho.
  destruct (proj1 (list_elem_of_lookup _ _) (objs_listed n0 w C l o Ho)) as [i Hi].
  exists i. split; [exact Hi|].
  destruct (forces_named n0 w C i l Hi) as (o' & Ho' & Hn). congruence.
Qed.

Lemma consistent_names_inj (n0 : nat) (w : world) (l1 l2 : loc) (o1 o2 : force_obj) :
  consistent n0 w ->
  objs w !! l1 = Some o1 -> objs w !! l2 = Some o2 ->
  force_name o1 = force_name o2 -> l1 = l2.
Proof.
  intros C H1 H2 Hn.
  destruct (consistent_index n0 w l1 o1 C H1) as (i & Hi & Hni).
  destruct (consistent_index n0 w l2 o2 C H2) as (j & Hj & Hnj).
  assert (i = j) as ->.
  { rewrite Hni, Hnj in Hn. apply format_force_name_inj in Hn. lia. }
  congruence.
Qed.

Lemma consistent_same (n0 : nat) (w w' : world) :
  consistent n0 w ->
  cur_id w' = cur_id w -> forces w' = forces w -> objs w' = objs w ->
  system w' = system w ->
  consistent n0 w'.
Proof.
  intros [C1 C2 C3 C4 C5] Hc Hf Ho Hs.
  split.
  - rewrite Hc, Hf. exact C1.
  - intros i l. rewrite Hf, Ho. apply C2.
  - intros l o. rewrite Hf, Ho. exact (C3 l o).
  - eapply heap_ok_same; eassumption.
  - intros l o c. rewrite Ho, Hs. apply C5.
Qed.

Lemma consistent_update (n0 : nat) (w w' : world) (self : loc) (o o' : force_obj) :
  consistent n0 w ->
  objs w !! self = Some o ->
  cur_id w' = cur_id w -> forces w' = forces w ->
  objs w' = <[self := o']> (objs w) ->
  force_name o' = force_name o ->
  flags_ok o' ->
  (forall nm, nm <> force_name o -> system w' !! nm = system w !! nm) ->
  (forall c, cpp_force o' = Some c ->
     system w' !! force_name o = if log o' then Some c else None) ->
  consistent n0 w'.
Proof.
  intros C Hself Hc Hf Ho Hn Hfl Hsys Hreg.
  pose proof C as [C1 C2 C3 C4 C5].
  split.
  - rewrite Hc, Hf. exact C1.
  - intros i l. rewrite Hf, Ho. intros Hi.
    destruct (C2 i l Hi) as (o1 & Ho1 & Hn1).
    destruct (decide (self = l)) as [<-|Hne].
    + exists o'. rewrite lookup_insert_eq. split; [reflexivity|]. congruence.
    + exists o1. rewrite lookup_insert_ne by exact Hne. auto.
  - intros l o1. rewrite Hf, Ho, lookup_insert.
    case_decide; [subst; intros _; exact (C3 _ _ Hself) | exact (C3 l o1)].
  - eapply heap_ok_insert; eassumption.
  - intros l o1 c. rewrite Ho, lookup_insert.
    case_decide as Hl.
    + intros [= <-] Hcpp. rewrite Hn. apply Hreg, Hcpp.
    + intros Ho1 Hcpp. rewrite Hsys; [apply (C5 l); assumption|].
      intros Heq. apply Hl. symmetry.
      eapply consistent_names_inj; eassumption.
Qed.

Lemma consistent_new (n0 : nat) (w w' : world) (o : force_obj) :
  consistent n0 w ->
  cur_id w' = cur_id w + 1 ->
  forces w' = (forces w ++ [new_loc w])%list ->
  objs w' = <[new_loc w := o]> (objs w) ->
  force_name o = format_force_name (cur_id w) ->
  flags_ok o ->
  (forall nm, nm <> force_name o -> system w' !! nm = system w !! nm) ->
  (forall c, cpp_force o = Some c ->
     system w' !! force_name o = if log o then Some c else None) ->
  consistent n0 w'.
Proof.
  intros C Hc Hf Ho Hn Hfl Hsys Hreg.
  pose proof C as [C1 C2 C3 C4 C5].
  pose proof (new_loc_fresh w) as Hfresh.
  split.
  - rewrite Hc, Hf, length_app. cbn. lia.
  - intros i l. rewrite Hf, Ho. intros Hi.
    destruct (decide (i < length (forces w))) as [Hlt|Hge].
    + rewrite lookup_app_l in Hi by exact Hlt.
      destruct (C2 i l Hi) as (o1 & Ho1 & Hn1).
      exists o1. split; [|exact Hn1].
      rewrite lookup_insert_ne; [exact Ho1|]. intros <-. congruence.
    + rewrite lookup_app_r in Hi by lia.
      destruct (i - length (forces w)) as [|k] eqn:Hk; cbn in Hi; [|discriminate].
      injection Hi as <-. exists o. rewrite lookup_insert_eq. split; [reflexivity|].
      rewrite Hn, C1. f_equal. lia.
  - intros l o1. rewrite Hf, Ho, lookup_insert.
    case_decide; [subst; intros _; set_solver|].
    intros Ho1. apply elem_of_app. left. eapply C3, Ho1.
  - eapply heap_ok_insert; eassumption.
  - intros l o1 c. rewrite Ho, lookup_insert.
    case_decide as Hl.
    + intros [= <-] Hcpp. apply Hreg, Hcpp.
    + intros Ho1 Hcpp. rewrite Hsys; [apply (C5 l); assumption|].
      destruct (consistent_index n0 w l o1 C Ho1) as (i & Hi & Hni).
      rewrite Hni, Hn, C1. intros Heq%format_force_name_inj.
      apply lookup_lt_Some in Hi. lia.
Qed.

Lemma constructs_consistent (n0 : nat) (derived : bool) (w : world)
    (r : world * outcome loc) :
  consistent n0 w -> constructs derived w r -> consistent n0 r.1.
Proof.
  intros C [(_ & Hc & Hf & Ho & Hs & _) | (o & Hc & Hf & Ho & Hn & He & Hl & Hrest)].
  - eapply consistent_same; eassumption.
  - eapply consistent_new; try eassumption.
    + intros _. exact Hl.
    + destruct Hrest as [(_ & Hs & _) | (_ & _ & Hs & _)]; intros nm Hnm;
        rewrite Hs; [reflexivity | apply lookup_insert_ne; congruence].
    + intros c Hcpp. rewrite Hl.
      destruct Hrest as [(Hnone & _) | (_ & Hsome & Hs & _)]; [congruence|].
      rewrite Hs, lookup_insert_eq. congruence.
Qed.

Lemma disable_consistent (n0 : nat) (w : world) (self : loc) (log_ : bool) :
  consistent n0 w -> consistent n0 (disable self log_ w).1.
Proof.
  intros C. destruct (objs w !! self) as [o|] eqn:Ho.
  - rewrite (disable_eq w self o Ho).
    destruct (cpp_force o) as [c|] eqn:Hc;
      [destruct (enabled o) eqn:He|]; cbn;
      try (eapply consistent_same; [eassumption | destruct w; reflexivity ..]).
    eapply (consistent_update n0 w _ self o (set_log log_ (set_enabled false o)));
      try eassumption; try (destruct w; reflexivity).
    + discriminate.
    + intros nm Hnm. destruct w; cbn. destruct log_; [reflexivity|].
      apply lookup_delete_ne. congruence.
    + intros c' Hc'. cbn in Hc'.
      pose proof (log_registered _ _ C self o c' Ho Hc') as Hreg.
      rewrite (flags_kept _ _ C self o Ho He) in Hreg.
      destruct log_; destruct w; cbn in *; [exact Hreg | apply lookup_delete_eq].
  - eapply consistent_same; [eassumption | ..];
      unfold disable, check_initialization, print_status_line;
      py_unfold; py_lookups; reflexivity.
Qed.

Lemma enable_consistent (n0 : nat) (w : world) (self : loc) :
  consistent n0 w -> consistent n0 (enable self w).1.
Proof.
  intros C. destruct (objs w !! self) as [o|] eqn:Ho.
  - rewrite (enable_eq w self o Ho).
    destruct (cpp_force o) as [c|] eqn:Hc;
      [destruct (enabled o) eqn:He|]; cbn;
      try (eapply consistent_same; [eassumption | destruct w; reflexivity ..]).
    eapply (consistent_update n0 w _ self o (set_log true (set_enabled true o)));
      try eassumption; try (destruct w; reflexivity).
    + intros _. reflexivity.
    + intros nm Hnm. destruct w; cbn. destruct (log o); [reflexivity|].
      apply lookup_insert_ne. congruence.
    + intros c' Hc'. cbn in Hc'. assert (c' = c) as -> by congruence.
      pose proof (log_registered _ _ C self o c Ho Hc) as Hreg.
      destruct w; cbn in *. destruct (log o); [exact Hreg|].
      apply lookup_insert_eq.
  - eapply consistent_same; [eassumption | ..];
      unfold enable, check_initialization, print_status_line;
      py_unfold; py_lookups; reflexivity.
Qed.

Lemma benchmark_consistent (n0 : nat) (w : world) (self : loc) (n : Scalar) :
  consistent n0 w -> consistent n0 (benchmark self n w).1.
Proof.
  intros C. destruct (objs w !! self) as [o|] eqn:Ho.
  - rewrite (benchmark_eq w self o Ho).
    destruct (cpp_force o);
      (eapply consistent_same; [eassumption | destruct w; reflexivity ..]).
  - eapply consistent_same; [eassumption | ..];
      unfold benchmark, check_initialization;
      py_unfold; py_lookups; reflexivity.
Qed.

Lemma set_force_consistent (n0 : nat) (w : world) (self : loc)
    (fx fy fz : Scalar) (grp : option group) :
  consistent n0 w -> consistent n0 (set_force self fx fy fz grp w).1.
Proof.
  intros C. destruct (objs w !! self) as [o|] eqn:Ho.
  - rewrite (set_force_eq w self o Ho).
    destruct (cpp_force o) as [c|] eqn:Hc; cbn;
      [|eapply consistent_same; [eassumption | destruct w; reflexivity ..]].
    eapply (consistent_update n0 w _ self o); try eassumption;
      try (destruct w; reflexivity).
    + exact (flags_kept _ _ C self o Ho).
    + intros c' Hc'. cbn in Hc'.
      pose proof (log_registered _ _ C self o c' Ho Hc') as Hreg.
      destruct w; exact Hreg.
  - eapply consistent_same; [eassumption | ..];
      unfold set_force, check_initialization;
      py_unfold; py_lookups; reflexivity.
Qed.

Lemma exec_consistent (n0 : nat) (c : command) (w : world) :
  consistent n0 w -> consistent n0 (exec c w).
Proof.
  intros C. destruct c; cbn.
  - eapply constructs_consistent, force_constructs; exact C.
  - eapply constructs_consistent, constant_constructs; exact C.
  - eapply constructs_consistent, active_constructs; exact C.
  - eapply constructs_consistent, const_external_field_dipole_constructs; exact C.
  - apply disable_consistent, C.
  - apply enable_consistent, C.
  - apply benchmark_consistent, C.
  - apply set_force_consistent, C.
Qed.

Lemma run_consistent (n0 : nat) (script : list command) (w : world) :
  consistent n0 w -> consistent n0 (run script w).
Proof.
  unfold run. revert w.
  induction script as [|c script IH]; intros w C; cbn; [exact C|].
  apply IH, exec_consistent, C.
Qed.

Lemma no_force_yet_consistent (w : world) :
  no_force_yet w -> consistent (cur_id w) w.
Proof.
  intros [Hf Ho]. split.
  - rewrite Hf. cbn. lia.
  - intros i l. rewrite Hf. intros Hi. rewrite lookup_nil in Hi. discriminate.
  - intros l o. rewrite Ho, lookup_empty. discriminate.
  - intros l o. rewrite Ho, lookup_empty. discriminate.
  - intros l o c. rewrite Ho, lookup_empty. discriminate.
Qed.

(** X1: what a class call does to the session, on every path.  It either
    raises having written only messages, or appends exactly one new object
    to [hoomd.context.current.forces], takes the next id for its force name
    and sets both flags; a derived class then either raises leaving that
    object without compute and the system untouched, or returns it with a
    new compute registered under its force name. *)
Theorem class_call_effect (w : world) :
  (forall nm, constructs false w (_force nm w))
  /\ (forall fx fy fz grp, constructs true w (constant fx fy fz grp w))
  /\ (forall seed f_lst grp ol rd cn,
        constructs true w (active seed f_lst grp ol rd cn w))
  /\ (forall fx fy fz p,
        constructs true w (const_external_field_dipole fx fy fz p w)).
Proof.
  repeat split; intros.
  - apply force_constructs.
  - apply constant_constructs.
  - apply active_constructs.
  - apply const_external_field_dipole_constructs.
Qed.

(** X2: before the session is initialized every class call raises
    [RuntimeError('Error creating force')]; one error message is written
    (after the status line, for the derived classes) and nothing else
    changes: no id is taken, no object is listed. *)
Theorem class_call_before_initialization (w : world) :
  initialized w = false ->
  let refused := error "Cannot create force before initialization\n" in
  (forall nm,
     _force nm w =
     (with_msgs (msgs w ++ [refused]) w, Raise (RuntimeError "Error creating force")))
  /\ (forall fx fy fz grp,
        constant fx fy fz grp w =
        (with_msgs ((msgs w ++ [status_line]) ++ [refused]) w,
         Raise (RuntimeError "Error creating force")))
  /\ (forall seed f_lst grp ol rd cn,
        active seed f_lst grp ol rd cn w =
        (with_msgs ((msgs w ++ [status_line]) ++ [refused]) w,
         Raise (RuntimeError "Error creating force")))
  /\ (forall fx fy fz p,
        const_external_field_dipole fx fy fz p w =
        (with_msgs ((msgs w ++ [status_line]) ++ [refused]) w,
         Raise (RuntimeError "Error creating force"))).
Proof.
  intros Hini refused. destruct w as [ini cu id fs ga sy ob co ms].
  cbn in Hini. subst ini.
  repeat split; intros;
    unfold _force, constant, constant__init__, active, active__init__,
      const_external_field_dipole, const_external_field_dipole__init__;
    py_unfold; reflexivity.
Qed.

Lemma class_call_before_initialization_witness :
  (constant 1%Q 0%Q 0%Q None uninitialized_session).2
  = Raise (RuntimeError "Error creating force")
  /\ forces (constant 1%Q 0%Q 0%Q None uninitialized_session).1 = []
  /\ cur_id (constant 1%Q 0%Q 0%Q None uninitialized_session).1 = 0.
Proof.
  destruct (class_call_before_initialization uninitialized_session)
    as (_ & Hc & _); [reflexivity |].
  rewrite Hc. repeat split.
Defined.




(** X4: start where no force exists yet and run any script, raised
    exceptions included.  The id counter has advanced by the number of
    forces listed in [hoomd.context.current.forces]; the [i]-th of them is
    named after the [i]-th id taken; every force object is listed, and
    listed once. *)
Theorem session_forces_counted_and_named (w : world) (script : list command) :
  no_force_yet w ->
  let w' := run script w in
  cur_id w' = cur_id w + length (forces w')
  /\ (forall i l, forces w' !! i = Some l ->
        exists o, objs w' !! l = Some o
                  /\ force_name o = format_force_name (cur_id w + i))
  /\ (forall l o, objs w' !! l = Some o -> l ∈ forces w')
  /\ NoDup (forces w').
Proof.
  intros H0 w'.
  pose proof (run_consistent (cur_id w) script w (no_force_yet_consistent w H0)) as C.
  fold w' in C. repeat split.
  - apply (ids_counted _ _ C).
  - apply (forces_named _ _ C).
  - apply (objs_listed _ _ C).
  - apply NoDup_alt. intros i j l Hi Hj.
    destruct (forces_named _ _ C i l Hi) as (o1 & Ho1 & Hn1).
    destruct (forces_named _ _ C j l Hj) as (o2 & Ho2 & Hn2).
    assert (o1 = o2) as -> by congruence.
    rewrite Hn1 in Hn2. apply format_force_name_inj in Hn2. lia.
Qed.

Lemma session_forces_counted_and_named_witness :
  cur_id (run sample_script fresh_session) = 3
  /\ NoDup (forces (run sample_script fresh_session)).
Proof.
  destruct (session_forces_counted_and_named fresh_session sample_script)
    as (Hc & _ & _ & Hn); [split; reflexivity |].
  split; [rewrite Hc; reflexivity | exact Hn].
Defined.

(** X5: in such a session two different force objects never carry the
    same force name, so no two of them compete for one entry of the
    system. *)
Theorem force_names_unique
    (w : world) (script : list command) (l1 l2 : loc) (n1 n2 : string) :
  no_force_yet w ->
  force_name <$> objs (run script w) !! l1 = Some n1 ->
  force_name <$> objs (run script w) !! l2 = Some n2 ->
  l1 <> l2 ->
  n1 <> n2.
Proof.
  intros H0 H1 H2 Hne Heq. apply Hne.
  pose proof (run_consistent (cur_id w) script w (no_force_yet_consistent w H0)) as C.
  destruct (objs (run script w) !! l1) as [o1|] eqn:Ho1; [|discriminate].
  destruct (objs (run script w) !! l2) as [o2|] eqn:Ho2; [|discriminate].
  cbn in H1, H2. eapply consistent_names_inj; try eassumption. congruence.
Qed.

Lemma force_names_unique_witness : "force1" <> "force2".
Proof.
  apply (force_names_unique fresh_session sample_script 1 2 "force1" "force2");
    [split; reflexivity | vm_compute; reflexivity | vm_compute; reflexivity
    | discriminate].
Defined.

(** X6: in such a session the log flag of a force that has a compute says
    whether the system holds that compute: with the flag set the system
    maps the force's name to the force's own compute, with the flag clear
    the name is not in the system at all. *)
Theorem log_flag_tracks_registration
    (w : world) (script : list command) (l : loc) (o : force_obj) (c : cloc) :
  no_force_yet w ->
  objs (run script w) !! l = Some o ->
  cpp_force o = Some c ->
  system (run script w) !! force_name o = if log o then Some c else None.
Proof.
  intros H0 Ho Hc.
  pose proof (run_consistent (cur_id w) script w (no_force_yet_consistent w H0)) as C.
  exact (log_registered _ _ C l o c Ho Hc).
Qed.

Lemma log_flag_tracks_registration_witness :
  system (run [new_constant (4 # 10)%Q 1%Q (1 # 2)%Q None] fresh_session)
    !! force_name sample_constant = Some 0.
Proof.
  apply (log_flag_tracks_registration fresh_session
           [new_constant (4 # 10)%Q 1%Q (1 # 2)%Q None] 0 sample_constant 0);
    [split; reflexivity | vm_compute; reflexivity | reflexivity].
Defined.

(** X7: in such a session a method call on one force leaves every other
    force object as it was, and leaves what the system holds under the
    other force's name as it was: toggling one force never registers or
    unregisters another. *)
Theorem control_calls_frame
    (w : world) (script : list command) (c : command) (self l : loc)
    (o : force_obj) :
  no_force_yet w ->
  receiver c = Some self ->
  l <> self ->
  objs (run script w) !! l = Some o ->
  objs (exec c (run script w)) !! l = Some o
  /\ system (exec c (run script w)) !! force_name o
     = system (run script w) !! force_name o.
Proof.
  intros H0 Hrec Hne Ho.
  pose proof (run_consistent (cur_id w) script w (no_force_yet_consistent w H0)) as C.
  revert C Ho. generalize (run script w). generalize (cur_id w).
  clear w H0. intros n0 w1 C Ho.
  assert (Hother : forall o1, objs w1 !! self = Some o1 -> force_name o <> force_name o1).
  { intros o1 Ho1 Heq. apply Hne.
    eapply (consistent_names_inj _ w1 l self o o1); eassumption. }
  destruct (objs w1 !! self) as [o1|] eqn:Hself.
  - specialize (Hother o1 eq_refl).
    destruct c; cbn in Hrec; try discriminate; injection Hrec as ->; cbn [exec].
    + rewrite (disable_eq w1 self o1 Hself).
      destruct (cpp_force o1), (enabled o1); cbn;
        try (destruct w1; cbn in *; split; [exact Ho | reflexivity]).
      destruct w1; cbn in *. rewrite lookup_insert_ne by congruence.
      split; [exact Ho|]. destruct log_; [reflexivity|].
      apply lookup_delete_ne. congruence.
    + rewrite (enable_eq w1 self o1 Hself).
      destruct (cpp_force o1), (enabled o1); cbn;
        try (destruct w1; cbn in *; split; [exact Ho | reflexivity]).
      destruct w1; cbn in *. rewrite lookup_insert_ne by congruence.
      split; [exact Ho|]. destruct (log o1); [reflexivity|].
      apply lookup_insert_ne. congruence.
    + rewrite (benchmark_eq w1 self o1 Hself).
      destruct (cpp_force o1); destruct w1; cbn in *; split; (exact Ho || reflexivity).
    + rewrite (set_force_eq w1 self o1 Hself).
      destruct (cpp_force o1); destruct w1; cbn in *;
        rewrite ?lookup_insert_ne by congruence; split; (exact Ho || reflexivity).
  - destruct c; cbn in Hrec; try discriminate; injection Hrec as ->; cbn [exec].
    + unfold disable, check_initialization, print_status_line.
      py_unfold; cbn; rewrite Hself; cbn; split; (exact Ho || reflexivity).
    + unfold enable, check_initialization, print_status_line.
      py_unfold; cbn; rewrite Hself; cbn; split; (exact Ho || reflexivity).
    + unfold benchmark, check_initialization.
      py_unfold; cbn; rewrite Hself; cbn; split; (exact Ho || reflexivity).
    + unfold set_force, check_initialization.
      py_unfold; cbn; rewrite Hself; cbn; split; (exact Ho || reflexivity).
Qed.

Lemma control_calls_frame_witness :
  system (exec (call_disable 0 false)
            (run [new_constant 1%Q 0%Q 0%Q None;
                  new_const_external_field_dipole 0%Q 1%Q 0%Q 1%Q] fresh_session))
    !! "force1" = Some 1.
Proof.
  pose (d := default sample_constant
               (objs (run [new_constant 1%Q 0%Q 0%Q None;
                           new_const_external_field_dipole 0%Q 1%Q 0%Q 1%Q]
                          fresh_session) !! 1)).
  destruct (control_calls_frame fresh_session
              [new_constant 1%Q 0%Q 0%Q None;
               new_const_external_field_dipole 0%Q 1%Q 0%Q 1%Q]
              (call_disable 0 false) 0 1 d) as [_ Hs];
    [split; reflexivity | reflexivity | discriminate | vm_compute; reflexivity |].
  etransitivity; [exact Hs | vm_compute; reflexivity].
Defined.

(** ** More on toggling and the controls *)

Lemma flags_set_id (o : force_obj) :
  enabled o = true -> log o = true ->
  set_log true (set_enabled true (set_log true (set_enabled false o))) = o.
Proof. destruct o; cbn. intros -> ->. reflexivity. Qed.

(** X8: on an initialized, enabled force, [disable(log=True)] followed by
    [enable()] gives back the very world it started from, two status lines
    apart: no compute is added to or removed from the system at any point,
    and the force object is what it was. *)
Theorem disable_log_enable_restores
    (w : world) (self : loc) (o : force_obj) (c : cloc) :
  objs w !! self = Some o ->
  cpp_force o = Some c ->
  enabled o = true ->
  log o = true ->
  let r1 := disable self true w in
  system r1.1 = system w
  /\ enable self r1.1 =
     (with_msgs ((msgs w ++ [status_line]) ++ [status_line]) w, Return tt).
Proof.
  intros Hself Hc He Hl r1. subst r1.
  rewrite (disable_enabled w self o c Hself Hc He true). cbn [fst].
  split; [destruct w; reflexivity|].
  erewrite enable_disabled;
    [ | destruct w; cbn; apply lookup_insert_eq | exact Hc | reflexivity ].
  destruct w as [ini cu id fs ga sy ob co ms]; cbn in *.
  rewrite insert_insert_eq, (flags_set_id o He Hl), (insert_id ob self o Hself).
  reflexivity.
Qed.

Lemma disable_log_enable_restores_witness :
  objs (enable 0 (disable 0 true session_with_constant).1).1
  = objs session_with_constant
  /\ system (enable 0 (disable 0 true session_with_constant).1).1
     = system session_with_constant.
Proof.
  destruct (disable_log_enable_restores session_with_constant 0 sample_constant 0)
    as [_ H]; [reflexivity | reflexivity | reflexivity | reflexivity |].
  rewrite H. split; reflexivity.
Defined.

(** X9: [benchmark] looks at the compute only, not at the flags: after
    [disable(log=False)] has taken the compute out of the system, a
    [benchmark(n)] on the force still returns, and that compute has
    received the benchmark call with [int(n)] iterations. *)
Theorem benchmark_after_disable
    (w : world) (self : loc) (o : force_obj) (c : cloc) (cm : compute)
    (n : Scalar) :
  objs w !! self = Some o ->
  cpp_force o = Some c ->
  enabled o = true ->
  computes w !! c = Some cm ->
  let r1 := disable self false w in
  let r2 := benchmark self n r1.1 in
  r2.2 = Return (average_time c (int n))
  /\ computes r2.1 !! c = Some (Compute (built cm) (calls cm ++ [native_benchmark (int n)]))
  /\ system r2.1 !! force_name o = None
  /\ objs r2.1 = objs r1.1.
Proof.
  intros Hself Hc He Hcm r1 r2. subst r2 r1.
  rewrite (disable_enabled w self o c Hself Hc He false). cbn [fst].
  erewrite benchmark_eq by (destruct w; cbn; apply lookup_insert_eq).
  cbn. rewrite Hc. destruct w; cbn in *. repeat split.
  - rewrite lookup_alter_eq, Hcm. reflexivity.
  - apply lookup_delete_eq.
Qed.

Lemma benchmark_after_disable_witness :
  (benchmark 0 (7 # 2)%Q (disable 0 false session_with_constant).1).2
  = Return (average_time 0 3).
Proof.
  destruct (benchmark_after_disable session_with_constant 0 sample_constant 0
              sample_compute (7 # 2)%Q) as [H _];
    [reflexivity | reflexivity | reflexivity | reflexivity |].
  exact H.
Defined.

(** X10: a [set_force] made while the force is disabled without logging is
    not lost: the compute that [enable()] puts back into the system is the
    one that received the new components. *)
Theorem set_force_while_disabled
    (w : world) (self : loc) (o : force_obj) (c : cloc) (cm : compute)
    (fx fy fz : Scalar) :
  objs w !! self = Some o ->
  cpp_force o = Some c ->
  enabled o = true ->
  computes w !! c = Some cm ->
  let r1 := disable self false w in
  let r2 := set_force self fx fy fz None r1.1 in
  let r3 := enable self r2.1 in
  r2.2 = Return tt /\ r3.2 = Return tt
  /\ system r3.1 !! force_name o = Some c
  /\ computes r3.1 !! c = Some (Compute (built cm) (calls cm ++ [setForce fx fy fz]))
  /\ contributes_to_net_force r3.1 self = true.
Proof.
  intros Hself Hc He Hcm r1 r2 r3. subst r3 r2 r1.
  rewrite (disable_enabled w self o c Hself Hc He false). cbn [fst].
  erewrite set_force_eq by (destruct w; cbn; apply lookup_insert_eq).
  cbn [cpp_force set_log set_enabled]. rewrite Hc. cbv zeta. cbn [fst snd].
  erewrite enable_disabled;
    [ | destruct w; cbn; apply lookup_insert_eq | exact Hc | reflexivity ].
  unfold contributes_to_net_force.
  destruct w; cbn in *. repeat split.
  - apply lookup_insert_eq.
  - rewrite lookup_alter_eq, Hcm. reflexivity.
  - rewrite lookup_insert_eq. reflexivity.
Qed.

Lemma set_force_while_disabled_witness :
  let r1 := disable 0 false session_with_constant in
  let r2 := set_force 0 0%Q 0%Q 1%Q None r1.1 in
  let r3 := enable 0 r2.1 in
  system r3.1 !! "force0" = Some 0
  /\ computes r3.1 !! 0
     = Some (Compute (built sample_compute) [setForce 0%Q 0%Q 1%Q]).
Proof.
  destruct (set_force_while_disabled session_with_constant 0 sample_constant 0
              sample_compute 0%Q 0%Q 1%Q) as (_ & _ & Hs & Hc & _);
    [reflexivity | reflexivity | reflexivity | reflexivity |].
  split; [exact Hs | exact Hc].
Defined.

(** X11: [set_force] rewrites the attributes [fx], [fy] and [fz] of the
    force and no other: in particular a call with a [group] argument sends
    the group to the compute but leaves the [group] attribute and
    [metadata_fields] of the force as the constructor set them. *)
Theorem set_force_keeps_other_attributes
    (w : world) (self : loc) (o : force_obj) (c : cloc)
    (fx fy fz : Scalar) (grp : option group) :
  objs w !! self = Some o ->
  cpp_force o = Some c ->
  exists o',
    objs (set_force self fx fy fz grp w).1 !! self = Some o'
    /\ name o' = name o
    /\ (forall k, k <> "fx" -> k <> "fy" -> k <> "fz" ->
                  attrs o' !! k = attrs o !! k).
Proof.
  intros Hself Hc. rewrite (set_force_eq w self o Hself), Hc.
  eexists. split; [destruct w; cbn; apply lookup_insert_eq|].
  split; [reflexivity|].
  intros k Hx Hy Hz. cbn. rewrite !lookup_insert_ne by congruence. reflexivity.
Qed.

Lemma set_force_keeps_other_attributes_witness :
  exists o',
    objs (set_force 0 0%Q 0%Q 1%Q (Some (Group "fluid" [1])) session_with_constant).1
      !! 0 = Some o'
    /\ attrs o' !! "group" = None
    /\ attrs o' !! "metadata_fields" = Some (VNames ["fx"; "fy"; "fz"]).
Proof.
  destruct (set_force_keeps_other_attributes session_with_constant 0
              sample_constant 0 0%Q 0%Q 1%Q (Some (Group "fluid" [1])))
    as (o' & Ho' & _ & Hk); [reflexivity | reflexivity |].
  exists o'. split; [exact Ho'|].
  rewrite !Hk by discriminate. split; reflexivity.
Defined.

(** ** More on construction *)

(** X12: in an initialized session [constant(fx, fy, fz, group)] always
    returns the new force (the native constructor is taken not to fail).
    Its compute is built on the native group of
    [group], or of [hoomd.context.current.group_all] when no group is
    given, and is registered under the force's name; the force stores the
    three components, and [group] together with a fourth metadata field
    only when a group was given. *)
Theorem constant_construction
    (w : world) (fx fy fz : Scalar) (grp : option group) :
  initialized w = true ->
  let r := constant fx fy fz grp w in
  r.2 = Return (new_loc w)
  /\ computes r.1 !! new_cloc w
     = Some (Compute (ConstForceCompute (cpp_group (default (group_all w) grp))
                        fx fy fz) [])
  /\ system r.1 !! format_force_name (cur_id w) = Some (new_cloc w)
  /\ exists o,
       objs r.1 !! new_loc w = Some o
       /\ name o = "" /\ cpp_force o = Some (new_cloc w)
       /\ force_name o = format_force_name (cur_id w)
       /\ enabled o = true /\ log o = true
       /\ attrs o !! "fx" = Some (VScalar fx)
       /\ attrs o !! "fy" = Some (VScalar fy)
       /\ attrs o !! "fz" = Some (VScalar fz)
       /\ attrs o !! "group" = VGroup <$> grp
       /\ attrs o !! "metadata_fields"
          = Some (VNames (["fx"; "fy"; "fz"]
                            ++ match grp with Some _ => ["group"] | None => [] end)%list).
Proof.
  intros Hini r. subst r.
  unfold constant, constant__init__, ConstForceCompute__new.
  destruct w as [ini cu id fs ga sy ob co ms]. cbn in Hini. subst ini.
  py_unfold. cbn.
  destruct grp as [g|]; cbn; py_lookups;
    (split; [reflexivity|]); rewrite ?lookup_insert_eq;
    (split; [reflexivity|]); (split; [reflexivity|]);
    eexists; (split; [reflexivity|]); cbn; repeat split.
Qed.

Lemma constant_construction_witness :
  (constant (4 # 10)%Q 1%Q (1 # 2)%Q (Some (Group "fluid" [1; 2])) fresh_session).2
  = Return 0
  /\ computes
       (constant (4 # 10)%Q 1%Q (1 # 2)%Q (Some (Group "fluid" [1; 2])) fresh_session).1
       !! 0
     = Some (Compute (ConstForceCompute [1; 2] (4 # 10)%Q 1%Q (1 # 2)%Q) []).
Proof.
  destruct (constant_construction fresh_session (4 # 10)%Q 1%Q (1 # 2)%Q
              (Some (Group "fluid" [1; 2]))) as (Hr & Hc & _); [reflexivity |].
  split; [exact Hr | exact Hc].
Defined.

(** X13: with a constraint whose class name is the string
    ["constraint_ellipsoid"] itself (the test is one of identity: an equal
    name that is a string of its own is refused) and arguments the engine
    accepts, [active(...)] returns the new force; its compute is the GPU class
    exactly when CUDA is enabled, was built with the center and the three
    semi-axes read from the constraint, and is registered under the
    force's name; the force keeps the constraint object. *)
Theorem active_with_ellipsoid
    (w : world) (seed : Z) (f_lst : option (list pyval)) (grp : group)
    (orientation_link : bool) (rotation_diff : Scalar) (cn : constraint_obj) :
  initialized w = true ->
  existsb malformed (default [] f_lst) = false ->
  class_name_is cn "constraint_ellipsoid" = true ->
  (0 <= rotation_diff)%Q ->
  cpp_group grp <> [] ->
  existsb zero_magnitude (default [] f_lst) = false ->
  let r := active seed f_lst grp orientation_link rotation_diff (Some cn) w in
  r.2 = Return (new_loc w)
  /\ computes r.1 !! new_cloc w
     = Some (Compute
               ((if cuda_enabled w then ActiveForceComputeGPU else ActiveForceCompute)
                  (cpp_group grp) seed f_lst orientation_link rotation_diff
                  (constraint_P cn) (constraint_rx cn) (constraint_ry cn)
                  (constraint_rz cn)) [])
  /\ system r.1 !! format_force_name (cur_id w) = Some (new_cloc w)
  /\ exists o,
       objs r.1 !! new_loc w = Some o
       /\ cpp_force o = Some (new_cloc w)
       /\ enabled o = true /\ log o = true
       /\ attrs o !! "constraint" = Some (VConstraint cn)
       /\ attrs o !! "seed" = Some (VInt seed)
       /\ attrs o !! "rotation_diff" = Some (VScalar rotation_diff).
Proof.
  intros Hini Hl Hcn Hrd Hg Hz r. subst r.
  assert (Hneg : negative rotation_diff = false).
  { destruct (negative rotation_diff) eqn:Hn; [|reflexivity].
    apply negative_iff in Hn. exfalso. revert Hn. apply Qle_not_lt, Hrd. }
  rewrite (active_success w seed f_lst grp orientation_link rotation_diff (Some cn)
             Hini Hl ltac:(intros c [= <-]; exact Hcn) Hneg Hg Hz).
  cbn. rewrite !lookup_insert_eq. repeat split.
  eexists. split; [reflexivity|]. cbn. repeat split.
Qed.

Lemma active_with_ellipsoid_witness :
  computes
    (active 7 (Some [PyTuple [PyNum 1%Q; PyNum 2%Q; PyNum 3%Q]])
       (Group "groupA" [0; 1]) false 100%Q (Some sample_ellipsoid) fresh_session).1
    !! 0
  = Some (Compute
            (ActiveForceCompute [0; 1] 7
               (Some [PyTuple [PyNum 1%Q; PyNum 2%Q; PyNum 3%Q]]) false 100%Q
               (make_scalar3 0%Q 0%Q 0%Q) 3%Q 4%Q 5%Q) []).
Proof.
  destruct (active_with_ellipsoid fresh_session 7
              (Some [PyTuple [PyNum 1%Q; PyNum 2%Q; PyNum 3%Q]])
              (Group "groupA" [0; 1]) false 100%Q sample_ellipsoid)
    as (_ & Hc & _);
    [reflexivity | reflexivity | reflexivity | discriminate | discriminate
    | reflexivity |].
  exact Hc.
Defined.

(** ** _force.get_metadata *)

Lemma get_metadata_eq (w : world) (self : loc) (o : force_obj)
    (base : gmap string metadata_value) :
  objs w !! self = Some o ->
  get_metadata self base w =
  (w, Return
        (let data := <["log" := MetaBool (log o)]>
                       (<["enabled" := MetaBool (enabled o)]> base) in
         if negb (String.eqb (name o) "") then <["name" := MetaStr (name o)]> data
         else data)).
Proof.
  intros Hself. unfold get_metadata. py_unfold. rewrite Hself. cbn.
  rewrite Hself. cbn. rewrite Hself. cbn.
  destruct (String.eqb (name o) ""); reflexivity.
Qed.

(** X14: the metadata of a force follows its toggles.  After
    [disable(log)] on an initialized, enabled force, [get_metadata] reports
    [enabled] False and [log] as passed; after the [enable()] that follows
    it reports both True.  Either way it overrides what the base class put
    under these two keys, passes every other key of the base class through
    (['name'] apart), and changes nothing in the world. *)
Theorem get_metadata_follows_toggles
    (w : world) (self : loc) (o : force_obj) (c : cloc) (log_ : bool)
    (base : gmap string metadata_value) :
  objs w !! self = Some o ->
  cpp_force o = Some c ->
  enabled o = true ->
  let w1 := (disable self log_ w).1 in
  let w2 := (enable self w1).1 in
  exists d1 d2,
    get_metadata self base w1 = (w1, Return d1)
    /\ d1 !! "enabled" = Some (MetaBool false)
    /\ d1 !! "log" = Some (MetaBool log_)
    /\ get_metadata self base w2 = (w2, Return d2)
    /\ d2 !! "enabled" = Some (MetaBool true)
    /\ d2 !! "log" = Some (MetaBool true)
    /\ (forall k, k <> "enabled" -> k <> "log" -> k <> "name" ->
                  d1 !! k = base !! k /\ d2 !! k = base !! k).
Proof.
  intros Hself Hc He w1 w2.
  set (o1 := set_log log_ (set_enabled false o)).
  set (o2 := set_log true (set_enabled true o1)).
  assert (H1 : objs w1 !! self = Some o1).
  { subst w1. rewrite (disable_enabled w self o c Hself Hc He log_).
    destruct w; cbn. apply lookup_insert_eq. }
  assert (H2 : objs w2 !! self = Some o2).
  { subst w2. rewrite (enable_disabled w1 self o1 c H1 Hc eq_refl).
    destruct w1; cbn. apply lookup_insert_eq. }
  eexists _, _.
  rewrite (get_metadata_eq w1 self o1 base H1),
          (get_metadata_eq w2 self o2 base H2).
  cbn. repeat split;
    destruct (String.eqb (name o) "");
    cbn; rewrite ?lookup_insert_ne by congruence;
    rewrite ?lookup_insert_eq; try reflexivity;
    rewrite ?lookup_insert_ne by congruence; rewrite ?lookup_insert_eq;
    reflexivity.
Qed.

Lemma get_metadata_follows_toggles_witness :
  exists d,
    (get_metadata 0 ∅ (disable 0 true session_with_constant).1).2 = Return d
    /\ d !! "enabled" = Some (MetaBool false)
    /\ d !! "log" = Some (MetaBool true).
Proof.
  destruct (get_metadata_follows_toggles session_with_constant 0 sample_constant 0
              true ∅) as (d1 & d2 & Hg & He & Hl & _);
    [reflexivity | reflexivity | reflexivity |].
  exists d1. rewrite Hg. repeat split; assumption.
Defined.

(** X15: the ['name'] entry of the metadata.  A force built by the base
    class with a name [n] reports ['_' + n], also when [n] is the empty
    string; built without a name, and for every [constant] force (the
    derived classes pass no name on), [get_metadata] adds no ['name'] of
    its own and hands on what the base class had there. *)
Theorem get_metadata_name
    (w : world) (base : gmap string metadata_value) :
  initialized w = true ->
  (forall nm,
     exists d,
       get_metadata (new_loc w) base (_force nm w).1 = ((_force nm w).1, Return d)
       /\ d !! "name" = match nm with
                        | Some n => Some (MetaStr ("_" ++ n))
                        | None => base !! "name"
                        end)
  /\ (forall fx fy fz grp,
        exists d,
          get_metadata (new_loc w) base (constant fx fy fz grp w).1
          = ((constant fx fy fz grp w).1, Return d)
          /\ d !! "name" = base !! "name").
Proof.
  intros Hini. split.
  - intros nm.
    assert (Ho : objs (_force nm w).1 !! new_loc w
                 = Some (ForceObj (match nm with None => "" | Some n => "_" ++ n end)
                           None (format_force_name (cur_id w)) true true ∅)).
    { unfold _force. destruct w as [ini cu id fs ga sy ob co ms].
      cbn in Hini. subst ini. py_unfold. cbn. apply lookup_insert_eq. }
    eexists. rewrite (get_metadata_eq _ _ _ base Ho). split; [reflexivity|].
    destruct nm as [n|]; cbn.
    + apply lookup_insert_eq.
    + rewrite !lookup_insert_ne by discriminate. reflexivity.
  - intros fx fy fz grp.
    destruct (constant_constructs fx fy fz grp w)
      as [(_ & Hc & _ & Hobjs & _) | (o & _ & _ & Hobjs & _)].
    + exfalso.
      assert (Hnew : is_Some (objs (constant fx fy fz grp w).1 !! new_loc w)).
      { clear Hobjs Hc. unfold constant, constant__init__, ConstForceCompute__new.
        destruct w as [ini cu id fs ga sy ob co ms]. cbn in Hini. subst ini.
        py_unfold. cbn. destruct grp; cbn; py_lookups; eauto. }
      rewrite Hobjs, new_loc_fresh in Hnew. destruct Hnew; discriminate.
    + assert (Hname : name <$> objs (constant fx fy fz grp w).1 !! new_loc w = Some "").
      { clear Hobjs. unfold constant, constant__init__, ConstForceCompute__new.
        destruct w as [ini cu id fs ga sy ob co ms]. cbn in Hini. subst ini.
        py_unfold. cbn. destruct grp; cbn; py_lookups; reflexivity. }
      destruct (objs (constant fx fy fz grp w).1 !! new_loc w) as [o'|] eqn:Ho';
        [|discriminate].
      cbn in Hname. injection Hname as Hname.
      eexists. rewrite (get_metadata_eq _ _ _ base Ho'). split; [reflexivity|].
      rewrite Hname. cbn. rewrite !lookup_insert_ne by discriminate. reflexivity.
Qed.

Lemma get_metadata_name_witness :
  exists d,
    (get_metadata 0 ∅ (_force (Some "") fresh_session).1).2 = Return d
    /\ d !! "name" = Some (MetaStr "_").
Proof.
  destruct (get_metadata_name fresh_session ∅ eq_refl) as [H _].
  destruct (H (Some "")) as (d & Hg & Hn).
  exists d. split; [|exact Hn].
  etransitivity; [|exact (f_equal snd Hg)]. reflexivity.
Defined.

(** ** hoomd.tune.custom_tuner *)

Lemma assign_all_from (t : custom_tuner.tuner_obj)
    (outs : list (option custom_tuner.tuner_exn)) (xs : list custom_tuner.pyobject) :
  fold_left (fun st x => let r := custom_tuner.set_tuner st.1 x in
                         (r.1, st.2 ++ [r.2])%list) xs (t, outs)
  = (fold_left (fun t x => (custom_tuner.set_tuner t x).1) xs t,
     (outs ++ map (fun x => (custom_tuner.set_tuner t x).2) xs)%list).
Proof.
  revert t outs. induction xs as [|x xs IH]; intros t outs; cbn.
  - rewrite app_nil_r. reflexivity.
  - rewrite IH, <- app_assoc. cbn. do 2 f_equal. f_equal.
    apply map_ext. intros y. unfold custom_tuner.set_tuner.
    destruct (custom_tuner.isinstance y custom_tuner.Action),
             (custom_tuner.isinstance x custom_tuner.Action); reflexivity.
Qed.

(** X16: the [tuner] property accepts instances of [hoomd.custom.Action]
    and nothing else.  In any sequence of assignments, each one whose
    value is an [Action] stores it and raises nothing, and each one whose
    value is not raises [ValueError] and stores nothing; so reading
    [tuner] afterwards gives the last assigned value that is an [Action],
    and what it gave before if none was. *)
Theorem tuner_keeps_last_action
    (self : custom_tuner.tuner_obj) (xs : list custom_tuner.pyobject) :
  let r := custom_tuner.assign_all self xs in
  r.2 = map (fun x => if custom_tuner.isinstance x custom_tuner.Action then None
                      else Some (custom_tuner.ValueError
                                   "updater must be an instance of hoomd.custom.Action"))
            xs
  /\ custom_tuner.tuner r.1
     = match last (filter (fun x => custom_tuner.isinstance x custom_tuner.Action = true)
                          xs) with
       | Some a => inr a
       | None => custom_tuner.tuner self
       end.
Proof.
  intros r. subst r. unfold custom_tuner.assign_all.
  rewrite assign_all_from. cbn [fst snd app]. split.
  - apply map_ext. intros x. unfold custom_tuner.set_tuner.
    destruct (custom_tuner.isinstance x custom_tuner.Action); reflexivity.
  - revert self. induction xs as [|x xs IH]; intros self; [reflexivity|].
    cbn [fold_left]. rewrite IH. rewrite filter_cons.
    unfold custom_tuner.set_tuner.
    destruct (custom_tuner.isinstance x custom_tuner.Action) eqn:Hx.
    + rewrite decide_True by reflexivity. cbn [fst].
      rewrite last_cons.
      destruct (last (filter _ xs)); reflexivity.
    + rewrite decide_False by discriminate. reflexivity.
Qed.

Example tuner_refuses_non_action :
  let a := custom_tuner.PyObject 1 ["MyTuner"; "hoomd.custom.Action"; "object"] in
  let b := custom_tuner.PyObject 2 ["int"; "object"] in
  custom_tuner.assign_all (custom_tuner.TunerObj None) [a; b]
  = (custom_tuner.TunerObj (Some a),
     [None;
      Some (custom_tuner.ValueError
              "updater must be an instance of hoomd.custom.Action")])
  /\ custom_tuner.tuner (custom_tuner.TunerObj None)
     = inl (custom_tuner.NoAttribute "_action").
Proof. split; reflexivity. Qed.

(** ** Class calls and the forces that exist already *)

Lemma new_cloc_fresh (w : world) : computes w !! new_cloc w = None.
Proof. unfold new_cloc, unused. apply not_elem_of_dom. apply is_fresh. Qed.

Lemma exec_constructs (c : command) (w : world) :
  receiver c = None ->
  exists derived r, exec c w = r.1 /\ constructs derived w r.
Proof.
  destruct c; cbn; try discriminate; intros _.
  - eexists _, _. split; [reflexivity | apply force_constructs].
  - eexists _, _. split; [reflexivity | apply constant_constructs].
  - eexists _, _. split; [reflexivity | apply active_constructs].
  - eexists _, _. split; [reflexivity | apply const_external_field_dipole_constructs].
Qed.

(** X17: in a session started without forces, a class call, whether it
    returns or raises, leaves every force object that exists already as
    it was, leaves what the system holds under that force's name as it
    was, and leaves every compute that exists already as it was. *)
Theorem class_calls_frame
    (w : world) (script : list command) (c : command) (l : loc) (o : force_obj) :
  no_force_yet w ->
  receiver c = None ->
  objs (run script w) !! l = Some o ->
  objs (exec c (run script w)) !! l = Some o
  /\ system (exec c (run script w)) !! force_name o
     = system (run script w) !! force_name o
  /\ (forall c' cm, computes (run script w) !! c' = Some cm ->
                    computes (exec c (run script w)) !! c' = Some cm).
Proof.
  intros H0 Hrec Ho.
  pose proof (run_consistent (cur_id w) script w (no_force_yet_consistent w H0)) as C.
  revert C Ho. generalize (run script w). generalize (cur_id w).
  clear w H0. intros n0 w1 C Ho.
  destruct (exec_constructs c w1 Hrec) as (derived & r & -> & Hr).
  destruct Hr as [(_ & _ & _ & Hobjs & Hsys & Hcm)
                 | (o' & _ & _ & Hobjs & Hn & _ & _ & Hrest)].
  - rewrite Hobjs, Hsys, Hcm. auto.
  - assert (Hl : new_loc w1 <> l).
    { intros <-. rewrite new_loc_fresh in Ho. discriminate. }
    assert (Hname : force_name o' <> force_name o).
    { destruct (consistent_index n0 w1 l o C Ho) as (i & Hi & Hni).
      rewrite Hn, Hni, (ids_counted _ _ C).
      intros Heq%format_force_name_inj. apply lookup_lt_Some in Hi. lia. }
    rewrite Hobjs, lookup_insert_ne by exact Hl.
    split; [exact Ho|].
    destruct Hrest as [(_ & Hsys & Hcm & _) | (_ & _ & Hsys & cm' & Hcm)];
      rewrite Hsys, Hcm.
    + auto.
    + rewrite lookup_insert_ne by exact Hname. split; [reflexivity|].
      intros c' cm Hc'. rewrite lookup_insert_ne; [exact Hc'|].
      intros <-. rewrite new_cloc_fresh in Hc'. discriminate.
Qed.

Lemma class_calls_frame_witness :
  objs (exec (new_const_external_field_dipole 0%Q 1%Q 0%Q 1%Q)
          (run [new_constant (4 # 10)%Q 1%Q (1 # 2)%Q None] fresh_session)) !! 0
  = Some sample_constant.
Proof.
  destruct (class_calls_frame fresh_session
              [new_constant (4 # 10)%Q 1%Q (1 # 2)%Q None]
              (new_const_external_field_dipole 0%Q 1%Q 0%Q 1%Q) 0 sample_constant)
    as (H & _); [split; reflexivity | reflexivity | vm_compute; reflexivity |].
  exact H.
Defined.
